(** * EkClick: order routes, chat routes, event channel and password check

    A shallow embedding of the server side of the EkClick delivery
    platform (server/routes.ts, server/storage.ts, server/auth.ts and the
    shared drizzle schema), together with the chat widget's receiver
    selection, and the properties of the order lifecycle and event
    distribution specification that hold, or fail, on that code.

    The relational store is a record of tables (lists of rows, in insertion
    order).  A database error, a zod parse error or any other JavaScript
    exception is the [None] of an option; each route handler catches it and
    answers 400 as its [catch] block does. *)

From Stdlib Require Import ZArith Ascii.
From stdpp Require Import gmap strings list fin_maps pretty sorting.

(** ** JSON values, request bodies and object spread *)

Module Json.

#[local] Unset Elimination Schemes.
Inductive json :=
| JNull
| JBool (b : bool)
| JNum (n : Z)
| JStr (s : string)
| JArr (l : list json)
| JObj (m : gmap string json).
#[local] Set Elimination Schemes.

(** The own enumerable properties of an array are its indices. *)
Definition index_keys (l : list json) : gmap string json :=
  list_to_map (imap (fun i v => (pretty i, v)) l).

(** [{...v}]: the own enumerable properties of [v]; none for [null],
    booleans and numbers.  express.json() hands the handlers an object or
    an array. *)
Definition spread (v : json) : gmap string json :=
  match v with
  | JObj m => m
  | JArr l => index_keys l
  | JStr s => index_keys ((fun c => JStr (String c EmptyString)) <$> String.list_ascii_of_string s)
  | _ => ∅
  end.

End Json.
Export Json.

(** ** shared/schema.ts *)

Module Schema.

Inductive UserRole := RoleAdmin | RoleVendor | RoleDelivery | RoleUser.

Inductive OrderStatus :=
| pending | confirmed | preparing | ready
| picked_up | in_transit | delivered | cancelled.

Inductive PaymentStatus := pay_pending | pay_paid | pay_failed.

#[global] Instance UserRole_eq_dec : EqDecision UserRole.
Proof. solve_decision. Defined.
#[global] Instance OrderStatus_eq_dec : EqDecision OrderStatus.
Proof. solve_decision. Defined.
#[global] Instance PaymentStatus_eq_dec : EqDecision PaymentStatus.
Proof. solve_decision. Defined.

(** Timestamps are milliseconds since the epoch. *)
Definition Timestamp := Z.

(** users: the columns the modelled routes read. *)
Record User := mkUser {
  u_id : string;
  u_username : string;
  u_password : string;
  u_email : string;
  u_role : UserRole;
  u_isActive : bool;
}.

(** vendors: [v_userId] references users.id. *)
Record Vendor := mkVendor {
  v_id : string;
  v_userId : string;
  v_shopName : string;
}.

Record Order := mkOrder {
  o_id : string;
  o_orderNumber : string;
  o_userId : string;
  o_vendorId : string;
  o_deliveryPersonId : option string;
  o_status : OrderStatus;
  o_totalAmount : string;
  o_deliveryFee : string;
  o_paymentStatus : PaymentStatus;
  o_deliveryAddress : string;
  o_pickupAddress : string;
  o_orderType : string;
  o_specialInstructions : option string;
  o_estimatedDeliveryTime : option Timestamp;
  o_actualDeliveryTime : option Timestamp;
  o_createdAt : Timestamp;
}.

Record Chat := mkChat {
  c_id : string;
  c_orderId : string;
  c_senderId : string;
  c_receiverId : string;
  c_message : string;
  c_isRead : bool;
  c_createdAt : Timestamp;
}.

(** z.infer<typeof insertOrderSchema>: id, orderNumber and createdAt are
    omitted; a column with a default is optional ([None] is undefined); a
    nullable column is optional and nullable ([Some None] is null). *)
Record InsertOrder := mkInsertOrder {
  io_userId : string;
  io_vendorId : string;
  io_deliveryPersonId : option (option string);
  io_status : option OrderStatus;
  io_totalAmount : string;
  io_deliveryFee : option string;
  io_paymentStatus : option PaymentStatus;
  io_deliveryAddress : string;
  io_pickupAddress : string;
  io_orderType : option string;
  io_specialInstructions : option (option string);
  io_estimatedDeliveryTime : option (option Timestamp);
  io_actualDeliveryTime : option (option Timestamp);
}.

(** Partial<InsertOrder>: every key may also be undefined. *)
Record PartialInsertOrder := mkPartialInsertOrder {
  po_userId : option string;
  po_vendorId : option string;
  po_deliveryPersonId : option (option string);
  po_status : option OrderStatus;
  po_totalAmount : option string;
  po_deliveryFee : option string;
  po_paymentStatus : option PaymentStatus;
  po_deliveryAddress : option string;
  po_pickupAddress : option string;
  po_orderType : option string;
  po_specialInstructions : option (option string);
  po_estimatedDeliveryTime : option (option Timestamp);
  po_actualDeliveryTime : option (option Timestamp);
}.

Record InsertChat := mkInsertChat {
  ic_orderId : string;
  ic_senderId : string;
  ic_receiverId : string;
  ic_message : string;
  ic_isRead : option bool;
}.

(** *** zod parsers of the insert schemas

    A parser reads one key of the object; [None] is a ZodError.  z.object
    strips the keys it does not know. *)

Definition zString (v : option json) : option string :=
  match v with Some (JStr s) => Some s | _ => None end.

Definition zBoolean (v : option json) : option bool :=
  match v with Some (JBool b) => Some b | _ => None end.

(** z.date() accepts Date objects only, and JSON carries none. *)
Definition zDate (v : option json) : option Timestamp := None.

Definition orderStatus_of_string (s : string) : option OrderStatus :=
  if String.eqb s "pending" then Some pending
  else if String.eqb s "confirmed" then Some confirmed
  else if String.eqb s "preparing" then Some preparing
  else if String.eqb s "ready" then Some ready
  else if String.eqb s "picked_up" then Some picked_up
  else if String.eqb s "in_transit" then Some in_transit
  else if String.eqb s "delivered" then Some delivered
  else if String.eqb s "cancelled" then Some cancelled
  else None.

Definition paymentStatus_of_string (s : string) : option PaymentStatus :=
  if String.eqb s "pending" then Some pay_pending
  else if String.eqb s "paid" then Some pay_paid
  else if String.eqb s "failed" then Some pay_failed
  else None.

Definition zOrderStatus (v : option json) : option OrderStatus :=
  s ← zString v; orderStatus_of_string s.

Definition zPaymentStatus (v : option json) : option PaymentStatus :=
  s ← zString v; paymentStatus_of_string s.

Definition zOptional {A} (p : option json → option A) (v : option json)
  : option (option A) :=
  match v with
  | None => Some None
  | Some _ => Some <$> p v
  end.

Definition zNullable {A} (p : option json → option A) (v : option json)
  : option (option A) :=
  match v with
  | Some JNull => Some None
  | _ => Some <$> p v
  end.

(** insertOrderSchema.parse *)
Definition insertOrderSchema_parse (obj : gmap string json) : option InsertOrder :=
  userId ← zString (obj !! "userId");
  vendorId ← zString (obj !! "vendorId");
  deliveryPersonId ← zOptional (zNullable zString) (obj !! "deliveryPersonId");
  status ← zOptional zOrderStatus (obj !! "status");
  totalAmount ← zString (obj !! "totalAmount");
  deliveryFee ← zOptional zString (obj !! "deliveryFee");
  paymentStatus ← zOptional zPaymentStatus (obj !! "paymentStatus");
  deliveryAddress ← zString (obj !! "deliveryAddress");
  pickupAddress ← zString (obj !! "pickupAddress");
  orderType ← zOptional zString (obj !! "orderType");
  specialInstructions ← zOptional (zNullable zString) (obj !! "specialInstructions");
  estimatedDeliveryTime ← zOptional (zNullable zDate) (obj !! "estimatedDeliveryTime");
  actualDeliveryTime ← zOptional (zNullable zDate) (obj !! "actualDeliveryTime");
  Some {| io_userId := userId; io_vendorId := vendorId;
          io_deliveryPersonId := deliveryPersonId; io_status := status;
          io_totalAmount := totalAmount; io_deliveryFee := deliveryFee;
          io_paymentStatus := paymentStatus;
          io_deliveryAddress := deliveryAddress;
          io_pickupAddress := pickupAddress; io_orderType := orderType;
          io_specialInstructions := specialInstructions;
          io_estimatedDeliveryTime := estimatedDeliveryTime;
          io_actualDeliveryTime := actualDeliveryTime |}.

(** insertChatSchema.parse *)
Definition insertChatSchema_parse (obj : gmap string json) : option InsertChat :=
  orderId ← zString (obj !! "orderId");
  senderId ← zString (obj !! "senderId");
  receiverId ← zString (obj !! "receiverId");
  message ← zString (obj !! "message");
  isRead ← zOptional zBoolean (obj !! "isRead");
  Some {| ic_orderId := orderId; ic_senderId := senderId;
          ic_receiverId := receiverId; ic_message := message;
          ic_isRead := isRead |}.

End Schema.
Export Schema.

(** ** server/storage.ts over the Postgres tables *)

Module Storage.

Record Store := mkStore {
  users : list User;
  vendors : list Vendor;
  orders : list Order;
  chats : list Chat;
  (** order_items rows as the values handed to the insert *)
  orderItems : list (gmap string json);
}.

(** What a request draws from outside the tables. *)
Record Env := mkEnv {
  (** the gen_random_uuid() default of the row the request inserts *)
  gen_random_uuid : string;
  (** defaultNow() *)
  now : Timestamp;
  (** `ECK-${Date.now()}-${Math.random()...}` of storage.createOrder *)
  orderNumber : string;
  (** Postgres reading a text parameter into a decimal(10, 2) column:
      the stored value, or [None] when the text is refused *)
  pg_numeric : string → option string;
  (** whether Postgres takes the values as an order_items row *)
  pg_order_item : gmap string json → bool;
}.

Definition with_orders (st : Store) (os : list Order) : Store :=
  {| users := users st; vendors := vendors st; orders := os;
     chats := chats st; orderItems := orderItems st |}.

Definition with_chats (st : Store) (cs : list Chat) : Store :=
  {| users := users st; vendors := vendors st; orders := orders st;
     chats := cs; orderItems := orderItems st |}.

Definition with_orderItems (st : Store) (its : list (gmap string json)) : Store :=
  {| users := users st; vendors := vendors st; orders := orders st;
     chats := chats st; orderItems := its |}.

(** [const [row] = await db.select()...where(eq(col, key)); return row || undefined] *)
Definition select_first {A} (col : A → string) (key : string) (rows : list A)
  : option A :=
  head (filter (fun r => col r = key) rows).

Definition getUser (st : Store) (id : string) : option User :=
  select_first u_id id (users st).

Definition getUserByUsername (st : Store) (username : string) : option User :=
  select_first u_username username (users st).

Definition getVendorByUserId (st : Store) (userId : string) : option Vendor :=
  select_first v_userId userId (vendors st).

Definition getOrder (st : Store) (id : string) : option Order :=
  select_first o_id id (orders st).

(** The order of [orderBy(chats.createdAt)]. *)
Definition chat_not_after (a b : Chat) : Prop :=
  (c_createdAt a ≤ c_createdAt b)%Z.

#[global] Instance chat_not_after_dec : RelDecision chat_not_after.
Proof. intros a b. unfold chat_not_after. apply _. Defined.

(** storage.getChatsByOrder: [.where(eq(chats.orderId, orderId))
    .orderBy(chats.createdAt)]; rows of equal createdAt come in an order
    Postgres does not fix. *)
Definition getChatsByOrder (st : Store) (orderId : string) : list Chat :=
  merge_sort chat_not_after
    (filter (fun c => c_orderId c = orderId) (chats st)).

(** Foreign keys of the schema: [.references(() => users.id)] and the like. *)
Definition user_exists (st : Store) (id : string) : bool :=
  bool_decide (id ∈ u_id <$> users st).
Definition vendor_exists (st : Store) (id : string) : bool :=
  bool_decide (id ∈ v_id <$> vendors st).
Definition order_exists (st : Store) (id : string) : bool :=
  bool_decide (id ∈ o_id <$> orders st).

(** A nullable reference: undefined and null reference nothing. *)
Definition nullable_user_ref (st : Store) (r : option (option string)) : bool :=
  match r with
  | Some (Some id) => user_exists st id
  | _ => true
  end.

Definition numeric_ok (env : Env) (v : option string) : bool :=
  match v with
  | Some s => bool_decide (is_Some (pg_numeric env s))
  | None => true
  end.

(** storage.createOrder: [insert(orders).values({ ...order, orderNumber })
    .returning()]; the columns left undefined take their defaults. *)
Definition createOrder (env : Env) (st : Store) (order : InsertOrder)
  : option (Store * Order) :=
  let id := gen_random_uuid env in
  totalAmount ← pg_numeric env (io_totalAmount order);
  deliveryFee ← pg_numeric env (default "0" (io_deliveryFee order));
  if negb (order_exists st id)
     && bool_decide (orderNumber env ∉ o_orderNumber <$> orders st)
     && user_exists st (io_userId order)
     && vendor_exists st (io_vendorId order)
     && nullable_user_ref st (io_deliveryPersonId order)
  then
    let newOrder :=
      {| o_id := id;
         o_orderNumber := orderNumber env;
         o_userId := io_userId order;
         o_vendorId := io_vendorId order;
         o_deliveryPersonId := default None (io_deliveryPersonId order);
         o_status := default pending (io_status order);
         o_totalAmount := totalAmount;
         o_deliveryFee := deliveryFee;
         o_paymentStatus := default pay_pending (io_paymentStatus order);
         o_deliveryAddress := io_deliveryAddress order;
         o_pickupAddress := io_pickupAddress order;
         o_orderType := default "catalog" (io_orderType order);
         o_specialInstructions := default None (io_specialInstructions order);
         o_estimatedDeliveryTime := default None (io_estimatedDeliveryTime order);
         o_actualDeliveryTime := default None (io_actualDeliveryTime order);
         o_createdAt := now env |} in
    Some (with_orders st (orders st ++ [newOrder]), newOrder)
  else None.

(** drizzle refuses an update whose every value is undefined
    ("No values to set"). *)
Definition no_values_to_set (u : PartialInsertOrder) : bool :=
  match u with
  | mkPartialInsertOrder None None None None None None None None None None
      None None None => true
  | _ => false
  end.

(** [update(orders).set(updates)]: the columns named by [updates] take the
    new value, every other column keeps its own. *)
Definition set_updates (env : Env) (u : PartialInsertOrder) (o : Order) : Order :=
  {| o_id := o_id o;
     o_orderNumber := o_orderNumber o;
     o_userId := default (o_userId o) (po_userId u);
     o_vendorId := default (o_vendorId o) (po_vendorId u);
     o_deliveryPersonId := default (o_deliveryPersonId o) (po_deliveryPersonId u);
     o_status := default (o_status o) (po_status u);
     o_totalAmount := default (o_totalAmount o) (po_totalAmount u ≫= pg_numeric env);
     o_deliveryFee := default (o_deliveryFee o) (po_deliveryFee u ≫= pg_numeric env);
     o_paymentStatus := default (o_paymentStatus o) (po_paymentStatus u);
     o_deliveryAddress := default (o_deliveryAddress o) (po_deliveryAddress u);
     o_pickupAddress := default (o_pickupAddress o) (po_pickupAddress u);
     o_orderType := default (o_orderType o) (po_orderType u);
     o_specialInstructions :=
       default (o_specialInstructions o) (po_specialInstructions u);
     o_estimatedDeliveryTime :=
       default (o_estimatedDeliveryTime o) (po_estimatedDeliveryTime u);
     o_actualDeliveryTime :=
       default (o_actualDeliveryTime o) (po_actualDeliveryTime u);
     o_createdAt := o_createdAt o |}.

(** Postgres reads the decimal parameters when the statement is bound,
    whether or not a row matches. *)
Definition numerics_accepted (env : Env) (u : PartialInsertOrder) : bool :=
  numeric_ok env (po_totalAmount u) && numeric_ok env (po_deliveryFee u).

(** The foreign keys Postgres checks on a row the update rewrites. *)
Definition references_accepted (st : Store) (u : PartialInsertOrder) : bool :=
  from_option (user_exists st) true (po_userId u)
  && from_option (vendor_exists st) true (po_vendorId u)
  && nullable_user_ref st (po_deliveryPersonId u).

Definition updates_accepted (env : Env) (st : Store) (u : PartialInsertOrder) : bool :=
  numerics_accepted env u && references_accepted st u.

(** storage.updateOrder: [update(orders).set(updates).where(eq(orders.id,
    id)).returning()], then [order || undefined]. *)
Definition updateOrder (env : Env) (st : Store) (id : string)
    (updates : PartialInsertOrder) : option (Store * option Order) :=
  if no_values_to_set updates then None
  else if negb (numerics_accepted env updates) then None
  else if order_exists st id && negb (references_accepted st updates) then None
  else
    let rows :=
      (fun o => if decide (o_id o = id) then set_updates env updates o else o)
        <$> orders st in
    Some (with_orders st rows, select_first o_id id rows).

(** storage.createOrderItem: the values are handed to the insert as they
    come. *)
Definition createOrderItem (env : Env) (st : Store)
    (orderItem : gmap string json) : option Store :=
  if pg_order_item env orderItem
  then Some (with_orderItems st (orderItems st ++ [orderItem]))
  else None.

(** storage.createChat *)
Definition createChat (env : Env) (st : Store) (chat : InsertChat)
  : option (Store * Chat) :=
  let id := gen_random_uuid env in
  if bool_decide (id ∉ c_id <$> chats st)
     && order_exists st (ic_orderId chat)
     && user_exists st (ic_senderId chat)
     && user_exists st (ic_receiverId chat)
  then
    let newChat :=
      {| c_id := id;
         c_orderId := ic_orderId chat;
         c_senderId := ic_senderId chat;
         c_receiverId := ic_receiverId chat;
         c_message := ic_message chat;
         c_isRead := default false (ic_isRead chat);
         c_createdAt := now env |} in
    Some (with_chats st (chats st ++ [newChat]), newChat)
  else None.

End Storage.
Export Storage.

(** ** server/routes.ts *)

Module Routes.

Inductive Payload :=
| Message (message : string)
| OrderJson (order : option Order)
| ChatJson (chat : Chat).

(** [res.status(code).json(payload)]; [res.json] alone answers 200. *)
Record Response := mkResponse {
  res_status : nat;
  res_json : Payload;
}.

(** *** The WebSocket server at /ws *)

Inductive ReadyState := CONNECTING | OPEN | CLOSING | CLOSED.

#[global] Instance ReadyState_eq_dec : EqDecision ReadyState.
Proof. solve_decision. Defined.

(** [{ type: 'chat_message', data: chat }], the one frame the server sends. *)
Inductive Frame :=
| chat_message (data : Chat).

(** One client of [wss.clients]: its ready state, the [orderId] property
    the message handler sets on it ([None] while undefined), and the
    frames sent to it so far, oldest first. *)
Record WebSocket := mkWebSocket {
  readyState : ReadyState;
  ws_orderId : option json;
  ws_sent : list Frame;
}.

Definition ws_send (f : Frame) (ws : WebSocket) : WebSocket :=
  {| readyState := readyState ws; ws_orderId := ws_orderId ws;
     ws_sent := ws_sent ws ++ [f] |}.

Definition ws_set_orderId (v : option json) (ws : WebSocket) : WebSocket :=
  {| readyState := readyState ws; ws_orderId := v; ws_sent := ws_sent ws |}.

(** [wss.on('connection', (ws) => ...)]: the callback takes the socket
    alone; the upgrade request and its session user are not looked at. *)
Definition wss_on_connection (upgrade_user : option User)
    (clients : list WebSocket) : list WebSocket :=
  clients ++ [ {| readyState := OPEN; ws_orderId := None; ws_sent := [] |} ].

(** The body of the [try] of [ws.on('message', ...)] for a socket, on the
    value [JSON.parse] gives.  [None] is the TypeError of reading a
    property of null. *)
Definition ws_message_try (data : json) (ws : WebSocket) : option WebSocket :=
  match data with
  | JNull => None
  | JObj m =>
      match m !! "type" with
      | Some (JStr t) =>
          if String.eqb t "join_order"
          then Some (ws_set_orderId (m !! "orderId") ws)
          else Some ws
      | _ => Some ws
      end
  | _ => Some ws
  end.

(** [ws.on('message', ...)] on the [i]-th client; [message] is what
    [JSON.parse(message.toString())] returns, [None] when it throws.  The
    [catch] logs and leaves the socket as it was. *)
Definition ws_on_message (i : nat) (message : option json)
    (clients : list WebSocket) : list WebSocket :=
  alter (fun ws => default ws (message ≫= fun data => ws_message_try data ws))
        i clients.

(** [wss.clients.forEach(client => { if (client.readyState ===
    WebSocket.OPEN) client.send(...) })] *)
Definition broadcast (f : Frame) (clients : list WebSocket) : list WebSocket :=
  (fun client =>
     if decide (readyState client = OPEN) then ws_send f client else client)
    <$> clients.

(** *** PUT /api/orders/:id *)

(** The [canUpdate] disjunction of the handler. *)
Definition canUpdate (st : Store) (req_user : User) (order : Order) : bool :=
  bool_decide (u_role req_user = RoleAdmin)
  || bool_decide (o_userId order = u_id req_user)
  || bool_decide (o_deliveryPersonId order = Some (u_id req_user))
  || (bool_decide (u_role req_user = RoleVendor)
      && match getVendorByUserId st (u_id req_user) with
         | Some v => bool_decide (v_id v = o_vendorId order)
         | None => false
         end).

(** [req_user] is [None] when [req.isAuthenticated()] is false. *)
Definition put_orders_id (env : Env) (st : Store) (req_user : option User)
    (id : string) (body : PartialInsertOrder) : Store * Response :=
  match req_user with
  | None => (st, mkResponse 401 (Message "Authentication required"))
  | Some user =>
      match getOrder st id with
      | None => (st, mkResponse 404 (Message "Order not found"))
      | Some order =>
          if negb (canUpdate st user order)
          then (st, mkResponse 403 (Message "Permission denied"))
          else
            match updateOrder env st id body with
            | Some (st', updatedOrder) =>
                (st', mkResponse 200 (OrderJson updatedOrder))
            | None => (st, mkResponse 400 (Message "Failed to update order"))
            end
      end
  end.

(** *** POST /api/orders *)

(** [req.body.items && Array.isArray(req.body.items)] *)
Definition body_items (body : json) : list json :=
  match body with
  | JObj m => match m !! "items" with Some (JArr items) => items | _ => [] end
  | _ => []
  end.

(** The loop over the items; [false] when a createOrderItem throws, the
    rows inserted before it stay. *)
Fixpoint create_items (env : Env) (st : Store) (orderId : string)
    (items : list json) : Store * bool :=
  match items with
  | [] => (st, true)
  | item :: rest =>
      match createOrderItem env st (<["orderId" := JStr orderId]> (spread item)) with
      | Some st' => create_items env st' orderId rest
      | None => (st, false)
      end
  end.

Definition post_orders (env : Env) (st : Store) (req_user : option User)
    (body : json) : Store * Response :=
  match req_user with
  | None => (st, mkResponse 401 (Message "Authentication required"))
  | Some user =>
      match
        validatedData ←
          insertOrderSchema_parse (<["userId" := JStr (u_id user)]> (spread body));
        createOrder env st validatedData
      with
      | None => (st, mkResponse 400 (Message "Invalid order data"))
      | Some (st1, order) =>
          match create_items env st1 (o_id order) (body_items body) with
          | (st2, true) => (st2, mkResponse 201 (OrderJson (Some order)))
          | (st2, false) => (st2, mkResponse 400 (Message "Invalid order data"))
          end
      end
  end.

(** *** POST /api/chats *)

Definition post_chats (env : Env) (st : Store) (clients : list WebSocket)
    (req_user : option User) (body : json)
  : Store * list WebSocket * Response :=
  match req_user with
  | None => (st, clients, mkResponse 401 (Message "Authentication required"))
  | Some user =>
      match
        validatedData ←
          insertChatSchema_parse (<["senderId" := JStr (u_id user)]> (spread body));
        createChat env st validatedData
      with
      | None => (st, clients, mkResponse 400 (Message "Invalid chat data"))
      | Some (st', chat) =>
          (st', broadcast (chat_message chat) clients,
           mkResponse 201 (ChatJson chat))
      end
  end.

End Routes.
Export Routes.

(** ** server/auth.ts *)

Module Auth.

(** [stored.split(".")] *)
Fixpoint split_dot (s : string) : list string :=
  match s with
  | EmptyString => [EmptyString]
  | String c rest =>
      if Ascii.eqb c "."%char then EmptyString :: split_dot rest
      else match split_dot rest with
           | part :: parts => String c part :: parts
           | [] => [String c EmptyString]
           end
  end.

Definition unhex (c : ascii) : option N :=
  let n := N_of_ascii c in
  if (48 <=? n)%N && (n <=? 57)%N then Some (n - 48)%N
  else if (97 <=? n)%N && (n <=? 102)%N then Some (n - 87)%N
  else if (65 <=? n)%N && (n <=? 70)%N then Some (n - 55)%N
  else None.

Definition byte_of_nibbles (hi lo : N) : Byte.byte :=
  default Byte.x00 (Byte.of_N (16 * hi + lo)).

(** [Buffer.from(s, "hex")]: two digits a byte, and the data is truncated
    at the first pair that is not two hexadecimal digits, a lone last
    digit included. *)
Fixpoint Buffer_from_hex (s : string) : list Byte.byte :=
  match s with
  | String a (String b rest) =>
      match unhex a, unhex b with
      | Some hi, Some lo => byte_of_nibbles hi lo :: Buffer_from_hex rest
      | _, _ => []
      end
  | _ => []
  end.

Definition hex_digit (n : N) : ascii :=
  if (n <? 10)%N then ascii_of_N (48 + n) else ascii_of_N (87 + n).

(** [buf.toString("hex")] *)
Fixpoint Buffer_toString_hex (buf : list Byte.byte) : string :=
  match buf with
  | [] => EmptyString
  | b :: rest =>
      String (hex_digit (Byte.to_N b / 16))
        (String (hex_digit (Byte.to_N b mod 16)) (Buffer_toString_hex rest))
  end.

#[global] Instance byte_eq_dec : EqDecision Byte.byte := Byte.byte_eq_dec.

(** crypto.timingSafeEqual throws a RangeError on buffers of different
    byte length. *)
Definition timingSafeEqual (a b : list Byte.byte) : option bool :=
  if decide (length a = length b) then Some (bool_decide (a = b)) else None.

Section WithScrypt.

(** crypto.scrypt promisified: [scrypt password salt keylen] is the derived
    key, [None] when the promise rejects. *)
Variable scrypt : string → string → nat → option (list Byte.byte).

(** [salt_bytes] is what randomBytes(16) returns. *)
Definition hashPassword (salt_bytes : list Byte.byte) (password : string)
  : option string :=
  let salt := Buffer_toString_hex salt_bytes in
  buf ← scrypt password salt 64;
  Some (Buffer_toString_hex buf +:+ "." +:+ salt).

Definition comparePasswords (supplied stored : string) : bool :=
  if String.prefix "$2a$" stored || String.prefix "$2b$" stored
     || String.prefix "$2y$" stored
  then false
  else
    match split_dot stored with
    | [hashed; salt] =>
        if String.eqb salt EmptyString then false
        else
          let attempt :=
            let hashedBuf := Buffer_from_hex hashed in
            suppliedBuf ← scrypt supplied salt 64;
            timingSafeEqual hashedBuf suppliedBuf in
          (* catch (error) { return false } *)
          default false attempt
    | _ => false
    end.

(** The verify callback of the LocalStrategy: [Some user] is
    [done(null, user)], [None] is [done(null, false)]. *)
Definition verify (st : Store) (username password : string) : option User :=
  match getUserByUsername st username with
  | None => None
  | Some user =>
      if negb (comparePasswords password (u_password user)) then None
      else Some user
  end.

End WithScrypt.

End Auth.
Export Auth.

(** ** client/src/components/chat/chat-widget.tsx *)

Module ChatWidget.

(** The body [{ orderId, receiverId, message }] handed to the mutation,
    which posts it to /api/chats. *)
Definition chat_body (orderId receiverId message : string) : json :=
  JObj (<["orderId" := JStr orderId]>
         (<["receiverId" := JStr receiverId]> {["message" := JStr message]})).

Definition is_space (c : ascii) : bool :=
  let n := N_of_ascii c in
  (n =? 32)%N || ((9 <=? n)%N && (n <=? 13)%N).

Fixpoint trimStart (s : string) : string :=
  match s with
  | String c rest => if is_space c then trimStart rest else s
  | EmptyString => EmptyString
  end.

(** [message.trim()], on one-byte white space. *)
Definition trim (s : string) : string :=
  String.rev (trimStart (String.rev (trimStart s))).

(** handleSendMessage: the body it posts to /api/chats, [None] when it
    returns without sending.  [orders] is the answer of GET /api/orders. *)
Definition handleSendMessage (user : option User) (orders : list Order)
    (selectedOrderId : option string) (message : string) : option json :=
  if String.eqb (trim message) EmptyString then None
  else
    match selectedOrderId with
    | None => None
    | Some selected =>
        if String.eqb selected EmptyString then None
        else
          match head (filter (fun o => o_id o = selected) orders) with
          | None => None
          | Some order =>
              let receiverId :=
                match u_role <$> user with
                | Some RoleUser =>
                    match o_deliveryPersonId order with
                    | Some d =>
                        if String.eqb d EmptyString then o_vendorId order else d
                    | None => o_vendorId order
                    end
                | Some RoleVendor => o_userId order
                | Some RoleDelivery => o_userId order
                | _ => EmptyString
                end in
              if String.eqb receiverId EmptyString then None
              else Some (chat_body selected receiverId (trim message))
          end
    end.

End ChatWidget.
Export ChatWidget.

(** ** client/src/lib/websocket.ts *)

Module UseWebSocket.

(** joinOrderRoom: [sendMessage({ type: "join_order", data: { orderId } })] *)
Definition joinOrderRoom (orderId : string) : json :=
  JObj (<["type" := JStr "join_order"]>
         {["data" := JObj {["orderId" := JStr orderId]}]}).

End UseWebSocket.
Export UseWebSocket.

(** ** The specification's own rules

    These definitions follow the words of the order lifecycle
    specification (sections 4.1, 4.2 and 6), not the code; they are what
    the handlers above are compared with. *)

Module Spec.

(** pending → confirmed → preparing → ready → picked_up → in_transit →
    delivered *)
Definition successor (s : OrderStatus) : option OrderStatus :=
  match s with
  | pending => Some confirmed
  | confirmed => Some preparing
  | preparing => Some ready
  | ready => Some picked_up
  | picked_up => Some in_transit
  | in_transit => Some delivered
  | delivered => None
  | cancelled => None
  end.

Definition terminal (s : OrderStatus) : bool :=
  bool_decide (s = delivered) || bool_decide (s = cancelled).

(** A transition is valid in the graph when it goes to the immediate
    successor, or to cancelled from a state that is not terminal. *)
Definition graph_valid (current requested : OrderStatus) : bool :=
  bool_decide (successor current = Some requested)
  || (bool_decide (requested = cancelled) && negb (terminal current)).

(** The Authorization Guard's canTransition, in its precedence. *)
Definition canTransition (st : Store) (actor : User) (order : Order)
    (requested : OrderStatus) : bool :=
  let current := o_status order in
  match u_role actor with
  | RoleAdmin => true
  | RoleVendor =>
      bool_decide (v_id <$> getVendorByUserId st (u_id actor) = Some (o_vendorId order))
      && (bool_decide ((current, requested) = (confirmed, preparing))
          || bool_decide ((current, requested) = (preparing, ready)))
  | RoleDelivery =>
      bool_decide (o_deliveryPersonId order = Some (u_id actor))
      && (bool_decide ((current, requested) = (ready, picked_up))
          || bool_decide ((current, requested) = (picked_up, in_transit))
          || bool_decide ((current, requested) = (in_transit, delivered)))
  | RoleUser =>
      bool_decide (o_userId order = u_id actor)
      && bool_decide (requested = cancelled)
      && (bool_decide (current = pending) || bool_decide (current = confirmed))
  end.

(** The participant check: the order's customer, the user behind its
    vendor, or its assigned delivery agent. *)
Definition participant (st : Store) (order : Order) (userId : string) : bool :=
  bool_decide (o_userId order = userId)
  || bool_decide (v_id <$> getVendorByUserId st userId = Some (o_vendorId order))
  || bool_decide (o_deliveryPersonId order = Some userId).

(** "ready or earlier in the graph" *)
Definition ready_or_earlier (s : OrderStatus) : bool :=
  bool_decide (s ∈ [pending; confirmed; preparing; ready]).

Definition is_hex_digit (c : ascii) : bool := bool_decide (is_Some (unhex c)).

(** A well-formed scrypt record: not a bcrypt hash, exactly two parts
    around one ".", and a hash part that is valid hex of the right length
    (the 128 digits of a 64-byte key). *)
Definition wellformed_scrypt_record (stored : string) : bool :=
  negb (String.prefix "$2a$" stored || String.prefix "$2b$" stored
        || String.prefix "$2y$" stored)
  && match split_dot stored with
     | [hashed; salt] =>
         bool_decide (String.length hashed = 128)
         && forallb is_hex_digit (String.list_ascii_of_string hashed)
     | _ => false
     end.

(** The subscribe-to-order control message [{ action: "join_order",
    orderId }] of section 6. *)
Definition subscribe_frame (orderId : string) : json :=
  JObj (<["action" := JStr "join_order"]> {["orderId" := JStr orderId]}).

End Spec.

(** ** Request bodies of PUT /api/orders/:id *)

Module Dashboards.

(** The body [{ status }] the vendor and delivery dashboards send. *)
Definition status_body (status : OrderStatus) : PartialInsertOrder :=
  {| po_userId := None; po_vendorId := None; po_deliveryPersonId := None;
     po_status := Some status; po_totalAmount := None; po_deliveryFee := None;
     po_paymentStatus := None; po_deliveryAddress := None;
     po_pickupAddress := None; po_orderType := None;
     po_specialInstructions := None; po_estimatedDeliveryTime := None;
     po_actualDeliveryTime := None |}.

(** The body [{ deliveryPersonId }]. *)
Definition assign_body (agent : string) : PartialInsertOrder :=
  {| po_userId := None; po_vendorId := None;
     po_deliveryPersonId := Some (Some agent);
     po_status := None; po_totalAmount := None; po_deliveryFee := None;
     po_paymentStatus := None; po_deliveryAddress := None;
     po_pickupAddress := None; po_orderType := None;
     po_specialInstructions := None; po_estimatedDeliveryTime := None;
     po_actualDeliveryTime := None |}.

End Dashboards.
Export Dashboards.

(** ** Data of the examples

    The four users of /api/create-demo-users, a second customer and a
    second delivery partner, one vendor and two orders. *)

Module Demo.

Definition demo_user (id username : string) (role : UserRole) : User :=
  {| u_id := id; u_username := username;
     u_password := "$2b$10$N9qo8uLOickgx2ZMRZoMyeIjZAgcfl7p92ldGxad68LJZdL17lhWy";
     u_email := username +:+ "@eclick.com"; u_role := role; u_isActive := true |}.

Definition admin := demo_user "u-admin" "admin" RoleAdmin.
Definition vendor1 := demo_user "u-vendor1" "vendor1" RoleVendor.
Definition delivery1 := demo_user "u-delivery1" "delivery1" RoleDelivery.
Definition delivery2 := demo_user "u-delivery2" "delivery2" RoleDelivery.
Definition customer1 := demo_user "u-customer1" "customer1" RoleUser.
Definition customer2 := demo_user "u-customer2" "customer2" RoleUser.

Definition pizza_palace : Vendor :=
  {| v_id := "v-1"; v_userId := "u-vendor1"; v_shopName := "Pizza Palace" |}.

Definition demo_order (id number : string) (agent : option string)
    (status : OrderStatus) : Order :=
  {| o_id := id; o_orderNumber := number; o_userId := "u-customer1";
     o_vendorId := "v-1"; o_deliveryPersonId := agent; o_status := status;
     o_totalAmount := "24.50"; o_deliveryFee := "2.00";
     o_paymentStatus := pay_pending;
     o_deliveryAddress := "321 Customer Road, City";
     o_pickupAddress := "456 Vendor Avenue, City";
     o_orderType := "catalog"; o_specialInstructions := None;
     o_estimatedDeliveryTime := None; o_actualDeliveryTime := None;
     o_createdAt := 1700000000000%Z |}.

(** A fresh order, and one on its way with delivery1. *)
Definition order1 := demo_order "o-1" "ECK-1700000000000-A1B" None pending.
Definition order2 :=
  demo_order "o-2" "ECK-1700000000001-C2D" (Some "u-delivery1") in_transit.

Definition store : Store :=
  {| users := [admin; vendor1; delivery1; delivery2; customer1; customer2];
     vendors := [pizza_palace];
     orders := [order1; order2];
     chats := [];
     orderItems := [] |}.

Definition env : Env :=
  {| gen_random_uuid := "3f0e8f4e-6c1d-4b7a-9a55-0d2f6f1c2b7e";
     now := 1700000360000%Z;
     orderNumber := "ECK-1700000360000-E3F";
     pg_numeric := Some;
     pg_order_item := fun _ => true |}.

(** The frame the server's message handler reads a subscription from:
    [{ type: "join_order", orderId }]. *)
Definition join_frame (orderId : string) : json :=
  JObj (<["type" := JStr "join_order"]> {["orderId" := JStr orderId]}).

(** A salt as hashPassword makes them, and the 64-byte key that scrypt
    with Node's defaults (N = 16384, r = 8, p = 1) derives from the
    password "admin123" and that salt, in hex. *)
Definition admin123_salt : string := "000102030405060708090a0b0c0d0e0f".
Definition admin123_key_hex : string :=
  "d418e5d5af20157e43941f71bc7d31bd64e10a32c208f46636c0aa836a3900693c93f2a56383e60ee1ff69c3f77c4b2e4eff1641de196d15349fd42f3915ba25".

(** A key derivation for the examples that have to run one: it agrees with
    scrypt on admin123 and the salt above, and gives [keylen] zero bytes
    everywhere else. *)
Definition demo_scrypt (password salt : string) (keylen : nat)
  : option (list Byte.byte) :=
  if decide (password = "admin123" ∧ salt = admin123_salt ∧ keylen = 64)
  then Some (Buffer_from_hex admin123_key_hex)
  else Some (replicate keylen Byte.x00).

End Demo.

(** ** More of server/storage.ts: the order queries, chats and products *)

Module Queries.

(** [orderBy(desc(orders.createdAt))]; rows of equal createdAt come in an
    order Postgres does not fix. *)
Definition order_not_before (a b : Order) : Prop :=
  (o_createdAt b ≤ o_createdAt a)%Z.

#[global] Instance order_not_before_dec : RelDecision order_not_before.
Proof. intros a b. unfold order_not_before. apply _. Defined.

Definition orderBy_desc_createdAt (rows : list Order) : list Order :=
  merge_sort order_not_before rows.

Definition getOrdersByUser (st : Store) (userId : string) : list Order :=
  orderBy_desc_createdAt (filter (fun o => o_userId o = userId) (orders st)).

Definition getOrdersByVendor (st : Store) (vendorId : string) : list Order :=
  orderBy_desc_createdAt (filter (fun o => o_vendorId o = vendorId) (orders st)).

Definition getOrdersByDeliveryPerson (st : Store) (deliveryPersonId : string)
  : list Order :=
  orderBy_desc_createdAt
    (filter (fun o => o_deliveryPersonId o = Some deliveryPersonId) (orders st)).

Definition getAllOrders (st : Store) : list Order :=
  orderBy_desc_createdAt (orders st).

Definition set_isRead (c : Chat) : Chat :=
  {| c_id := c_id c; c_orderId := c_orderId c; c_senderId := c_senderId c;
     c_receiverId := c_receiverId c; c_message := c_message c;
     c_isRead := true; c_createdAt := c_createdAt c |}.

(** storage.markChatAsRead: [update(chats).set({ isRead: true })
    .where(eq(chats.id, id))], then [result.rowCount > 0]. *)
Definition markChatAsRead (st : Store) (id : string) : Store * bool :=
  (with_chats st
     ((fun c => if decide (c_id c = id) then set_isRead c else c) <$> chats st),
   bool_decide (filter (fun c => c_id c = id) (chats st) ≠ [])).

(** products: [p_vendorId] references vendors.id. *)
Record Product := mkProduct {
  p_id : string;
  p_vendorId : string;
  p_name : string;
  p_description : option string;
  p_category : string;
  p_price : string;
  p_stock : Z;
  p_imageUrl : option string;
  p_isActive : bool;
  p_createdAt : Timestamp;
}.

Definition getProduct (products : list Product) (id : string) : option Product :=
  select_first p_id id products.

(** The order of [orderBy(desc(products.createdAt))]. *)
Definition product_not_before (a b : Product) : Prop :=
  (p_createdAt b ≤ p_createdAt a)%Z.

#[global] Instance product_not_before_dec : RelDecision product_not_before.
Proof. intros a b. unfold product_not_before. apply _. Defined.

(** storage.getProductsByVendor: the active products of the vendor, newest
    first. *)
Definition getProductsByVendor (products : list Product) (vendorId : string)
  : list Product :=
  merge_sort product_not_before
    (filter (fun p => p_vendorId p = vendorId ∧ p_isActive p = true) products).

Definition set_inactive (p : Product) : Product :=
  {| p_id := p_id p; p_vendorId := p_vendorId p; p_name := p_name p;
     p_description := p_description p; p_category := p_category p;
     p_price := p_price p; p_stock := p_stock p; p_imageUrl := p_imageUrl p;
     p_isActive := false; p_createdAt := p_createdAt p |}.

(** storage.deleteProduct: [update(products).set({ isActive: false })
    .where(eq(products.id, id))], then [result.rowCount > 0]. *)
Definition deleteProduct (products : list Product) (id : string)
  : list Product * bool :=
  ((fun p => if decide (p_id p = id) then set_inactive p else p) <$> products,
   bool_decide (filter (fun p => p_id p = id) products ≠ [])).

End Queries.
Export Queries.

(** ** More of server/routes.ts: the reading routes and DELETE
    /api/products/:id *)

Module ReadRoutes.

(** [res.status(code).json({ message })] or [res.json(data)]. *)
Inductive Body (A : Type) :=
| Msg (message : string)
| Data (data : A).
Arguments Msg {A} message.
Arguments Data {A} data.

Record Reply (A : Type) := mkReply {
  reply_status : nat;
  reply_json : Body A;
}.
Arguments mkReply {A} reply_status reply_json.
Arguments reply_status {A} r.
Arguments reply_json {A} r.

(** GET /api/orders: the [switch (req.user?.role)]. *)
Definition get_orders (st : Store) (req_user : option User) : Reply (list Order) :=
  match req_user with
  | None => mkReply 401 (Msg "Authentication required")
  | Some user =>
      let orders :=
        match u_role user with
        | RoleAdmin => getAllOrders st
        | RoleVendor =>
            match getVendorByUserId st (u_id user) with
            | Some vendor => getOrdersByVendor st (v_id vendor)
            | None => []
            end
        | RoleDelivery => getOrdersByDeliveryPerson st (u_id user)
        | RoleUser => getOrdersByUser st (u_id user)
        end in
      mkReply 200 (Data orders)
  end.

(** GET /api/orders/:orderId/chats *)
Definition get_orders_chats (st : Store) (req_user : option User)
    (orderId : string) : Reply (list Chat) :=
  match req_user with
  | None => mkReply 401 (Msg "Authentication required")
  | Some _ => mkReply 200 (Data (getChatsByOrder st orderId))
  end.

(** GET /api/vendors/:id/products, open to everyone. *)
Definition get_vendors_products (products : list Product) (id : string)
  : Reply (list Product) :=
  mkReply 200 (Data (getProductsByVendor products id)).

(** DELETE /api/products/:id; the answer carries a message in every case. *)
Definition delete_products_id (st : Store) (products : list Product)
    (req_user : option User) (id : string) : list Product * Reply unit :=
  match req_user with
  | None => (products, mkReply 401 (Msg "Authentication required"))
  | Some user =>
      match getProduct products id with
      | None => (products, mkReply 404 (Msg "Product not found"))
      | Some product =>
          if bool_decide (u_role user = RoleVendor)
             && negb (bool_decide
                        (v_id <$> getVendorByUserId st (u_id user)
                         = Some (p_vendorId product)))
          then (products,
                mkReply 403 (Msg "Can only delete your own products"))
          else ((deleteProduct products id).1,
                mkReply 200 (Msg "Product deleted successfully"))
      end
  end.

End ReadRoutes.
Export ReadRoutes.

(** ** client/src/components/orders/order-tracking.tsx *)

Module OrderTracking.

(** The keys and labels of [statusSteps]. *)
Definition statusSteps : list (OrderStatus * string) :=
  [ (pending, "Order Placed"); (confirmed, "Confirmed");
    (preparing, "Preparing"); (ready, "Ready for Pickup");
    (picked_up, "Picked Up"); (in_transit, "In Transit");
    (delivered, "Delivered") ].

(** [statusSteps.findIndex(step => step.key === order.status)], -1 when no
    step has the key. *)
Definition currentStepIndex (status : OrderStatus) : Z :=
  match list_find (fun step => step.1 = status) statusSteps with
  | Some (i, _) => Z.of_nat i
  | None => (-1)%Z
  end.

Inductive StepStatus := step_completed | step_active | step_pending.

Definition getStepStatus (status : OrderStatus) (stepIndex : Z) : StepStatus :=
  if (stepIndex <? currentStepIndex status)%Z then step_completed
  else if (stepIndex =? currentStepIndex status)%Z then step_active
  else step_pending.

(** The status of every row of the progress list, as [statusSteps.map]
    renders them. *)
Definition progress_rows (status : OrderStatus) : list StepStatus :=
  imap (fun index _ => getStepStatus status (Z.of_nat index)) statusSteps.

End OrderTracking.
Export OrderTracking.

(** ** client/src/pages/user-dashboard.tsx *)

Module UserDashboard.

(** [statusMap[status] || 0] *)
Definition getOrderProgress (status : OrderStatus) : Z :=
  match status with
  | pending => 10
  | confirmed => 25
  | preparing => 40
  | ready => 55
  | picked_up => 70
  | in_transit => 85
  | delivered => 100
  | cancelled => 0
  end%Z.

(** [orders.filter(order => !["delivered", "cancelled"].includes(order.status))] *)
Definition activeOrders (orders : list Order) : list Order :=
  filter (fun order => o_status order ∉ [delivered; cancelled]) orders.

End UserDashboard.

(** ** client/src/pages/delivery-dashboard.tsx *)

Module DeliveryDashboard.

(** [statusFlow[currentStatus]], undefined outside the three keys. *)
Definition getNextStatus (currentStatus : OrderStatus) : option OrderStatus :=
  match currentStatus with
  | ready => Some picked_up
  | picked_up => Some in_transit
  | in_transit => Some delivered
  | _ => None
  end.

(** [orders.filter(order => order.deliveryPersonId === user?.id)] *)
Definition assignedOrders (user : option User) (orders : list Order) : list Order :=
  filter (fun order => o_deliveryPersonId order = u_id <$> user) orders.

Definition activeOrders (user : option User) (orders : list Order) : list Order :=
  filter (fun order => o_status order ∉ [delivered; cancelled])
    (assignedOrders user orders).

Definition completedOrders (user : option User) (orders : list Order) : list Order :=
  filter (fun order => o_status order = delivered) (assignedOrders user orders).

(** The onClick of the status button of an active delivery: the order id
    and body of the PUT /api/orders/:id it sends, [None] when it sends
    nothing. *)
Definition onClick (order : Order) : option (string * PartialInsertOrder) :=
  match getNextStatus (o_status order) with
  | Some nextStatus => Some (o_id order, status_body nextStatus)
  | None => None
  end.

End DeliveryDashboard.

(** ** client/src/pages/vendor-dashboard.tsx *)

Module VendorDashboard.

(** The [nextStatus] of the "Update Status" button. *)
Definition nextStatus (status : OrderStatus) : OrderStatus :=
  match status with
  | confirmed => preparing
  | preparing => ready
  | _ => status
  end.

(** The onClick of the button: the PUT /api/orders/:id it sends, [None]
    when [nextStatus] is the order's status. *)
Definition onClick (order : Order) : option (string * PartialInsertOrder) :=
  if decide (nextStatus (o_status order) ≠ o_status order)
  then Some (o_id order, status_body (nextStatus (o_status order)))
  else None.

End VendorDashboard.

(** ** client/src/lib/websocket.ts: the reconnection of useWebSocket *)

Module Reconnect.

Definition maxReconnectAttempts : nat := 5.

(** The refs and state the socket handlers touch: [isConnected],
    [reconnectAttempts.current], and in [reconnectTimeout] the delay of the
    timer last stored in [reconnectTimeoutRef.current], [None] for null. *)
Record Hook := mkHook {
  isConnected : bool;
  reconnectAttempts : nat;
  reconnectTimeout : option Z;
}.

(** The state the hook starts with. *)
Definition initial : Hook :=
  {| isConnected := false; reconnectAttempts := 0; reconnectTimeout := None |}.

(** [Math.min(1000 * Math.pow(2, attempts), 30000)] *)
Definition delay (attempts : nat) : Z :=
  Z.min (1000 * 2 ^ Z.of_nat attempts) 30000.

(** socket.onopen *)
Definition onopen (h : Hook) : Hook :=
  {| isConnected := true; reconnectAttempts := 0;
     reconnectTimeout := reconnectTimeout h |}.

(** socket.onclose: with the new state, the delay of the timer it sets to
    call [connect], [None] when it sets none. *)
Definition onclose (h : Hook) : Hook * option Z :=
  if decide (reconnectAttempts h < maxReconnectAttempts)
  then
    let attempts := S (reconnectAttempts h) in
    ({| isConnected := false; reconnectAttempts := attempts;
        reconnectTimeout := Some (delay attempts) |},
     Some (delay attempts))
  else
    ({| isConnected := false; reconnectAttempts := reconnectAttempts h;
        reconnectTimeout := reconnectTimeout h |},
     None).

(** disconnect: the stored timer is cleared, the socket closed, the
    attempts reset. *)
Definition disconnect (h : Hook) : Hook :=
  {| isConnected := false; reconnectAttempts := 0; reconnectTimeout := None |}.

Inductive SocketEvent := ev_open | ev_close.

(** The handlers run over the events of the sockets, oldest first; with
    the state, the delays of the timers set along the way. *)
Fixpoint run (h : Hook) (events : list SocketEvent) : Hook * list Z :=
  match events with
  | [] => (h, [])
  | ev_open :: rest => run (onopen h) rest
  | ev_close :: rest =>
      let '(h', timer) := onclose h in
      let '(h'', timers) := run h' rest in
      (h'', option_list timer ++ timers)
  end.

End Reconnect.

(** ** The order items of POST /api/orders *)

Module OrderItems.

(** The values the loop of the handler hands to createOrderItem, one row
    an item: [{ ...item, orderId: order.id }]. *)
Definition item_rows (orderId : string) (items : list json)
  : list (gmap string json) :=
  (fun item => <["orderId" := JStr orderId]> (spread item)) <$> items.

End OrderItems.
Export OrderItems.

(** ** More data of the examples *)

Module Demo2.

Import Demo.

Definition margherita : Product :=
  {| p_id := "p-1"; p_vendorId := "v-1"; p_name := "Margherita";
     p_description := None; p_category := "pizza"; p_price := "9.50";
     p_stock := 20; p_imageUrl := None; p_isActive := true;
     p_createdAt := 1699990000000%Z |}.

Definition cola : Product :=
  {| p_id := "p-2"; p_vendorId := "v-2"; p_name := "Cola";
     p_description := None; p_category := "drinks"; p_price := "1.50";
     p_stock := 100; p_imageUrl := None; p_isActive := true;
     p_createdAt := 1699990000001%Z |}.

Definition products : list Product := [margherita; cola].

(** An order body with the required keys and the given items. *)
Definition order_body (items : list json) : json :=
  JObj (<["vendorId" := JStr "v-1"]>
         (<["totalAmount" := JStr "12.00"]>
           (<["deliveryAddress" := JStr "9 Side Street"]>
             (<["pickupAddress" := JStr "456 Vendor Avenue, City"]>
               {["items" := JArr items]})))).

(** An environment whose Postgres refuses every order item. *)
Definition env_no_items : Env :=
  {| gen_random_uuid := gen_random_uuid env; now := now env;
     orderNumber := orderNumber env; pg_numeric := pg_numeric env;
     pg_order_item := fun _ => false |}.

End Demo2.

(** * Properties *)

Import Demo.

(** ** The store under updateOrder *)

Section UpdateOrder.

Context (env : Env) (st : Store) (id : string).

Lemma set_updates_id u o : o_id (set_updates env u o) = o_id o.
Proof. reflexivity. Qed.

(** The row [returning()] gives back is the first matching row, rewritten. *)
Lemma select_first_set_updates u rows :
  select_first o_id id
    ((fun o => if decide (o_id o = id) then set_updates env u o else o) <$> rows)
  = set_updates env u <$> select_first o_id id rows.
Proof.
  unfold select_first.
  induction rows as [|o rows IH]; [done|].
  rewrite fmap_cons, !filter_cons.
  destruct (decide (o_id o = id)) as [Heq|Hne].
  - rewrite set_updates_id. by rewrite decide_True.
  - by rewrite decide_False.
Qed.

Lemma getOrder_exists order : getOrder st id = Some order → order_exists st id = true.
Proof.
  unfold getOrder, select_first, order_exists. intros Hh.
  apply bool_decide_eq_true.
  apply head_Some_elem_of, list_elem_of_filter in Hh as [<- Hin].
  by apply list_elem_of_fmap_2.
Qed.

(** An accepted update answers the rewritten row and stores it. *)
Lemma updateOrder_accepted u order :
  getOrder st id = Some order →
  no_values_to_set u = false →
  updates_accepted env st u = true →
  ∃ st', updateOrder env st id u = Some (st', Some (set_updates env u order))
         ∧ getOrder st' id = Some (set_updates env u order)
         ∧ users st' = users st ∧ vendors st' = vendors st
         ∧ chats st' = chats st.
Proof.
  intros Hget Hne Hacc. unfold updateOrder.
  apply andb_true_iff in Hacc as [Hnum Href].
  rewrite Hne, Hnum, Href, andb_false_r, select_first_set_updates.
  unfold getOrder in *. rewrite Hget.
  eexists. split; [reflexivity|]. simpl.
  by rewrite select_first_set_updates, Hget.
Qed.

End UpdateOrder.

Lemma status_body_accepted env st s :
  no_values_to_set (status_body s) = false
  ∧ updates_accepted env st (status_body s) = true.
Proof. done. Qed.

Lemma assign_body_accepted env st d :
  user_exists st d = true →
  no_values_to_set (assign_body d) = false
  ∧ updates_accepted env st (assign_body d) = true.
Proof.
  intros Hd. split; [done|].
  unfold updates_accepted, references_accepted; simpl. by rewrite Hd.
Qed.

(** ** PUT /api/orders/:id *)

(** The handler on an authenticated request for an existing order. *)
Lemma put_orders_id_found env st user id body order :
  getOrder st id = Some order →
  put_orders_id env st (Some user) id body =
    if canUpdate st user order
    then match updateOrder env st id body with
         | Some (st', updatedOrder) => (st', mkResponse 200 (OrderJson updatedOrder))
         | None => (st, mkResponse 400 (Message "Failed to update order"))
         end
    else (st, mkResponse 403 (Message "Permission denied")).
Proof. intros Hget. unfold put_orders_id. rewrite Hget. by destruct (canUpdate _ _ _). Qed.

(** A permitted request with an accepted body is answered 200 with the
    rewritten order, which is then the stored one. *)
Lemma put_orders_id_permitted env st user id body order :
  getOrder st id = Some order →
  canUpdate st user order = true →
  no_values_to_set body = false →
  updates_accepted env st body = true →
  ∃ st', put_orders_id env st (Some user) id body
           = (st', mkResponse 200 (OrderJson (Some (set_updates env body order))))
         ∧ getOrder st' id = Some (set_updates env body order).
Proof.
  intros Hget Hcan Hne Hacc.
  destruct (updateOrder_accepted env st id body order Hget Hne Hacc)
    as (st' & Hupd & Hget' & _).
  exists st'. split; [|done].
  by rewrite (put_orders_id_found _ _ _ _ _ _ Hget), Hcan, Hupd.
Qed.

(** What the permission disjunction says. *)
Lemma canUpdate_true_iff st user order :
  canUpdate st user order = true ↔
    u_role user = RoleAdmin
    ∨ o_userId order = u_id user
    ∨ o_deliveryPersonId order = Some (u_id user)
    ∨ (u_role user = RoleVendor
       ∧ ∃ v, getVendorByUserId st (u_id user) = Some v
              ∧ v_id v = o_vendorId order).
Proof.
  unfold canUpdate.
  rewrite !orb_true_iff, andb_true_iff, !bool_decide_eq_true.
  destruct (getVendorByUserId st (u_id user)) as [v|].
  - rewrite bool_decide_eq_true. split.
    + intros [[[?|?]|?]|[? ?]]; eauto 10.
    + intros [?|[?|[?|[? (v' & [= <-] & ?)]]]]; auto.
  - split.
    + intros [[[?|?]|?]|[_ [=]]]; auto.
    + intros [?|[?|[?|[_ (v' & [=] & _)]]]]; auto.
Qed.

(** C1, as amended.  For every authenticated actor, existing order and
    requested status, PUT /api/orders/:id with the body [{ status }] is
    answered 200 exactly when the handler's permission check holds (the
    actor is an admin, or is the order's customer, or is its assigned
    delivery agent, or is a vendor whose vendor record is the order's);
    every other request is answered 403 "Permission denied".  The requested
    status plays no part: no transition graph is consulted. *)
Theorem put_orders_id_succeeds_iff_canUpdate env st user id order requested :
  getOrder st id = Some order →
  let res := (put_orders_id env st (Some user) id (status_body requested)).2 in
  (res_status res = 200 ↔
     u_role user = RoleAdmin
     ∨ o_userId order = u_id user
     ∨ o_deliveryPersonId order = Some (u_id user)
     ∨ (u_role user = RoleVendor
        ∧ ∃ v, getVendorByUserId st (u_id user) = Some v
               ∧ v_id v = o_vendorId order))
  ∧ (res_status res ≠ 200 → res = mkResponse 403 (Message "Permission denied")).
Proof.
  intros Hget res. subst res. rewrite <- canUpdate_true_iff.
  destruct (canUpdate st user order) eqn:Hcan.
  - destruct (put_orders_id_permitted env st user id (status_body requested) order)
      as (st' & -> & _); try done.
  - rewrite (put_orders_id_found _ _ _ _ _ _ Hget), Hcan. simpl.
    split; [split; discriminate | done].
Qed.

Lemma put_orders_id_succeeds_iff_canUpdate_witness :
  getOrder store "o-1" = Some order1
  ∧ res_status (put_orders_id env store (Some customer1) "o-1"
                  (status_body delivered)).2 = 200.
Proof.
  split; [reflexivity|].
  apply (put_orders_id_succeeds_iff_canUpdate env store customer1 "o-1" order1
           delivered); [reflexivity|].
  right. left. reflexivity.
Defined.

(** C1, as stated, fails: the customer of the fresh order o-1 asks for
    delivered.  The guard's customer rule covers cancelled only, and
    pending → delivered is not an edge of the graph; the handler answers
    200. *)
Lemma put_orders_id_customer_marks_delivered :
  ¬ (res_status (put_orders_id env store (Some customer1) "o-1"
                   (status_body delivered)).2 = 200
     ↔ Spec.canTransition store customer1 order1 delivered = true
       ∧ Spec.graph_valid (o_status order1) delivered = true).
Proof. intros [Hsucc _]. destruct (Hsucc eq_refl) as [Hguard _]. discriminate Hguard. Qed.

(** C2, as amended.  For every order and every requested status, whether
    or not it is the successor of the current status and also when it is
    the current status itself, a request that passes the permission check
    is answered 200 and the requested status is the stored one; the handler
    has no InvalidTransition answer. *)
Theorem put_orders_id_accepts_any_status env st user id order requested :
  getOrder st id = Some order →
  canUpdate st user order = true →
  ∃ st' order',
    put_orders_id env st (Some user) id (status_body requested)
      = (st', mkResponse 200 (OrderJson (Some order')))
    ∧ getOrder st' id = Some order'
    ∧ o_status order' = requested.
Proof.
  intros Hget Hcan.
  destruct (put_orders_id_permitted env st user id (status_body requested) order)
    as (st' & Hput & Hget'); try done.
  by exists st', (set_updates env (status_body requested) order).
Qed.

Lemma put_orders_id_accepts_any_status_witness :
  getOrder store "o-1" = Some order1
  ∧ canUpdate store admin order1 = true
  ∧ ∃ st' order',
      put_orders_id env store (Some admin) "o-1" (status_body pending)
        = (st', mkResponse 200 (OrderJson (Some order')))
      ∧ getOrder st' "o-1" = Some order'
      ∧ o_status order' = pending.
Proof.
  split; [reflexivity|]. split; [reflexivity|].
  apply (put_orders_id_accepts_any_status env store admin "o-1" order1 pending);
    reflexivity.
Defined.

(** C2, as stated, fails: on the pending order o-1 the admin asks for
    delivered, which skips five stages, and then for pending, the current
    status; neither is the successor or cancelled, both are answered 200. *)
Lemma put_orders_id_skips_and_repeats :
  o_status order1 = pending
  ∧ Spec.successor pending ≠ Some delivered ∧ delivered ≠ cancelled
  ∧ res_status (put_orders_id env store (Some admin) "o-1"
                  (status_body delivered)).2 = 200
  ∧ Spec.successor pending ≠ Some pending ∧ pending ≠ cancelled
  ∧ res_status (put_orders_id env store (Some admin) "o-1"
                  (status_body pending)).2 = 200.
Proof. repeat split; done. Qed.

(** C5, as amended.  Every actor who passes the permission check of
    PUT /api/orders/:id (admin, the order's customer, its assigned delivery
    agent, its vendor) sets deliveryPersonId to any existing user with the
    body [{ deliveryPersonId }], whatever the order's status and whether or
    not an agent was assigned before: the new value replaces the old. *)
Theorem put_orders_id_assigns_deliveryPersonId env st user id order agent :
  getOrder st id = Some order →
  canUpdate st user order = true →
  user_exists st agent = true →
  ∃ st' order',
    put_orders_id env st (Some user) id (assign_body agent)
      = (st', mkResponse 200 (OrderJson (Some order')))
    ∧ getOrder st' id = Some order'
    ∧ o_deliveryPersonId order' = Some agent
    ∧ o_status order' = o_status order.
Proof.
  intros Hget Hcan Hagent.
  destruct (assign_body_accepted env st agent Hagent) as [Hne Hacc].
  destruct (put_orders_id_permitted env st user id (assign_body agent) order)
    as (st' & Hput & Hget'); try done.
  by exists st', (set_updates env (assign_body agent) order).
Qed.

Lemma put_orders_id_assigns_deliveryPersonId_witness :
  getOrder store "o-2" = Some order2
  ∧ canUpdate store customer1 order2 = true
  ∧ user_exists store "u-delivery2" = true
  ∧ ∃ st' order',
      put_orders_id env store (Some customer1) "o-2" (assign_body "u-delivery2")
        = (st', mkResponse 200 (OrderJson (Some order')))
      ∧ getOrder st' "o-2" = Some order'
      ∧ o_deliveryPersonId order' = Some "u-delivery2"
      ∧ o_status order' = o_status order2.
Proof.
  split; [reflexivity|]. split; [reflexivity|]. split; [reflexivity|].
  apply (put_orders_id_assigns_deliveryPersonId env store customer1 "o-2" order2
           "u-delivery2"); reflexivity.
Defined.

(** C5, as stated, fails: order o-2 is in transit, past ready, with
    delivery1 assigned; its customer, who is no administrator, replaces the
    agent by delivery2 and is answered 200. *)
Lemma put_orders_id_customer_reassigns_agent :
  u_role customer1 ≠ RoleAdmin
  ∧ Spec.ready_or_earlier (o_status order2) = false
  ∧ o_deliveryPersonId order2 = Some "u-delivery1"
  ∧ ∃ st',
      put_orders_id env store (Some customer1) "o-2" (assign_body "u-delivery2")
        = (st', mkResponse 200
                  (OrderJson (Some (demo_order "o-2" "ECK-1700000000001-C2D"
                                      (Some "u-delivery2") in_transit))))
      ∧ o_deliveryPersonId <$> getOrder st' "o-2" = Some (Some "u-delivery2").
Proof. repeat split; [done..|]. eexists. split; reflexivity. Qed.

(** C6, as amended.  A successful status update persists the new status
    and leaves actualDeliveryTime as it was, for every requested status,
    delivered included. *)
Theorem put_orders_id_keeps_actualDeliveryTime env st user id order requested :
  getOrder st id = Some order →
  canUpdate st user order = true →
  ∃ st' order',
    put_orders_id env st (Some user) id (status_body requested)
      = (st', mkResponse 200 (OrderJson (Some order')))
    ∧ getOrder st' id = Some order'
    ∧ o_status order' = requested
    ∧ o_actualDeliveryTime order' = o_actualDeliveryTime order.
Proof.
  intros Hget Hcan.
  destruct (put_orders_id_permitted env st user id (status_body requested) order)
    as (st' & Hput & Hget'); try done.
  by exists st', (set_updates env (status_body requested) order).
Qed.

Lemma put_orders_id_keeps_actualDeliveryTime_witness :
  getOrder store "o-2" = Some order2
  ∧ canUpdate store delivery1 order2 = true
  ∧ ∃ st' order',
      put_orders_id env store (Some delivery1) "o-2" (status_body delivered)
        = (st', mkResponse 200 (OrderJson (Some order')))
      ∧ getOrder st' "o-2" = Some order'
      ∧ o_status order' = delivered
      ∧ o_actualDeliveryTime order' = o_actualDeliveryTime order2.
Proof.
  split; [reflexivity|]. split; [reflexivity|].
  apply (put_orders_id_keeps_actualDeliveryTime env store delivery1 "o-2" order2
           delivered); reflexivity.
Defined.

(** C6, as stated, fails: delivery1 marks the order o-2 delivered; the
    update succeeds, the stored status is delivered and
    actualDeliveryTime is still unset. *)
Lemma put_orders_id_delivered_not_stamped :
  ∃ st' order',
    put_orders_id env store (Some delivery1) "o-2" (status_body delivered)
      = (st', mkResponse 200 (OrderJson (Some order')))
    ∧ getOrder st' "o-2" = Some order'
    ∧ o_status order' = delivered
    ∧ o_actualDeliveryTime order' = None.
Proof. do 2 eexists. repeat split; reflexivity. Qed.

(** C8.  A status update, or any other update, that names an order
    identifier absent from the store is answered 404 "Order not found", and
    the store is left as it was. *)
Theorem put_orders_id_not_found env st user id body :
  getOrder st id = None →
  put_orders_id env st (Some user) id body
    = (st, mkResponse 404 (Message "Order not found")).
Proof. intros Hget. unfold put_orders_id. by rewrite Hget. Qed.

Lemma put_orders_id_not_found_witness :
  getOrder store "o-404" = None
  ∧ put_orders_id env store (Some vendor1) "o-404" (status_body confirmed)
    = (store, mkResponse 404 (Message "Order not found")).
Proof.
  split; [reflexivity|].
  apply (put_orders_id_not_found env store vendor1 "o-404" (status_body confirmed)).
  reflexivity.
Defined.

(** ** POST /api/chats and POST /api/orders *)

Lemma insertChatSchema_parse_senderId senderId obj chat :
  insertChatSchema_parse (<["senderId" := JStr senderId]> obj) = Some chat →
  ic_senderId chat = senderId.
Proof.
  unfold insertChatSchema_parse. rewrite lookup_insert_eq. intros Hp.
  by simplify_option_eq.
Qed.

Lemma insertOrderSchema_parse_userId userId obj order :
  insertOrderSchema_parse (<["userId" := JStr userId]> obj) = Some order →
  io_userId order = userId.
Proof.
  unfold insertOrderSchema_parse. rewrite lookup_insert_eq. intros Hp.
  by simplify_option_eq.
Qed.

Lemma createChat_Some env st chat st' newChat :
  createChat env st chat = Some (st', newChat) →
  chats st' = chats st ++ [newChat]
  ∧ c_senderId newChat = ic_senderId chat
  ∧ c_receiverId newChat = ic_receiverId chat
  ∧ c_orderId newChat = ic_orderId chat.
Proof. unfold createChat. intros Hc. case_match; by simplify_eq. Qed.

Lemma createOrder_Some env st order st' newOrder :
  createOrder env st order = Some (st', newOrder) →
  orders st' = orders st ++ [newOrder]
  ∧ o_userId newOrder = io_userId order.
Proof.
  unfold createOrder. intros Hc.
  destruct (pg_numeric env (io_totalAmount order)); [|done].
  destruct (pg_numeric env (default "0" (io_deliveryFee order))); [|done].
  simpl in Hc. case_match; by simplify_eq.
Qed.

Lemma create_items_orders env orderId items :
  ∀ st, orders (create_items env st orderId items).1 = orders st.
Proof.
  induction items as [|item items IH]; intros st; [done|].
  simpl. unfold createOrderItem.
  destruct (pg_order_item env _); simpl; [|done].
  by rewrite IH.
Qed.

Lemma body_items_insert_userId v m :
  body_items (JObj (<["userId" := v]> m)) = body_items (JObj m).
Proof. unfold body_items. by rewrite lookup_insert_ne. Qed.

(** C9.  The chat POST /api/chats stores has the session user's id as
    senderId, and the order POST /api/orders stores has it as userId: a
    request adds no row, or one row carrying the session identity.  A
    senderId (a userId) in the request body has no effect: the request
    with that key set to any value has the same outcome, store, frames
    sent and answer, as the request without it or with another value. *)
Theorem post_routes_store_session_identity env st clients user :
  (∀ m v,
     post_chats env st clients (Some user) (JObj (<["senderId" := v]> m))
     = post_chats env st clients (Some user) (JObj m))
  ∧ (∀ m v,
       post_orders env st (Some user) (JObj (<["userId" := v]> m))
       = post_orders env st (Some user) (JObj m))
  ∧ (∀ body,
       let st' := (post_chats env st clients (Some user) body).1.1 in
       chats st' = chats st
       ∨ ∃ chat, chats st' = chats st ++ [chat] ∧ c_senderId chat = u_id user)
  ∧ (∀ body,
       let st' := (post_orders env st (Some user) body).1 in
       orders st' = orders st
       ∨ ∃ order, orders st' = orders st ++ [order] ∧ o_userId order = u_id user).
Proof.
  split; [|split; [|split]].
  - intros m v. unfold post_chats; simpl. by rewrite insert_insert_eq.
  - intros m v. unfold post_orders.
    rewrite body_items_insert_userId. simpl. by rewrite insert_insert_eq.
  - intros body. unfold post_chats.
    destruct (insertChatSchema_parse _) as [validated|] eqn:Hparse; simpl; [|by left].
    destruct (createChat env st validated) as [[st' chat]|] eqn:Hcreate; [|by left].
    apply createChat_Some in Hcreate as (Hchats & Hsender & _).
    right. exists chat. simpl. split; [done|].
    by rewrite Hsender, (insertChatSchema_parse_senderId _ _ _ Hparse).
  - intros body. unfold post_orders.
    destruct (insertOrderSchema_parse _) as [validated|] eqn:Hparse; simpl; [|by left].
    destruct (createOrder env st validated) as [[st1 order]|] eqn:Hcreate; [|by left].
    pose proof (create_items_orders env (o_id order) (body_items body) st1) as Hitems.
    apply createOrder_Some in Hcreate as [Hst1 Hu].
    right. exists order.
    rewrite (insertOrderSchema_parse_userId _ _ _ Hparse) in Hu.
    destruct (create_items env st1 (o_id order) (body_items body)) as [st2 [|]];
      simpl in *; by rewrite Hitems.
Qed.

(** Requests that do store a row: customer2 posts a chat whose
    body claims customer1 as sender, and an order whose body claims
    customer1 as owner; both rows carry customer2. *)
Example post_routes_spoofed_identity :
  (c_senderId <$> chats
     (post_chats env store [] (Some customer2)
        (JObj (<["senderId" := JStr "u-customer1"]>
                 (spread (chat_body "o-1" "u-vendor1" "hello"))))).1.1)
  = ["u-customer2"]
  ∧ (o_userId <$> orders
       (post_orders env store (Some customer2)
          (JObj (<["userId" := JStr "u-customer1"]>
                  (<["vendorId" := JStr "v-1"]>
                    (<["totalAmount" := JStr "12.00"]>
                      (<["deliveryAddress" := JStr "9 Side Street"]>
                        {["pickupAddress" := JStr "456 Vendor Avenue, City"]})))))).1)
    = ["u-customer1"; "u-customer1"; "u-customer2"].
Proof. split; vm_compute; reflexivity. Qed.

(** The server keeps the receiver the body names. *)
Lemma insertChatSchema_parse_fields uid m orderId receiverId message :
  m !! "orderId" = Some (JStr orderId) →
  m !! "receiverId" = Some (JStr receiverId) →
  m !! "message" = Some (JStr message) →
  m !! "isRead" = None →
  insertChatSchema_parse (<["senderId" := JStr uid]> m)
  = Some {| ic_orderId := orderId; ic_senderId := uid;
            ic_receiverId := receiverId; ic_message := message;
            ic_isRead := None |}.
Proof.
  intros Ho Hr Hm Hi. unfold insertChatSchema_parse.
  rewrite lookup_insert_eq, !lookup_insert_ne by done.
  by rewrite Ho, Hr, Hm, Hi.
Qed.

(** C4, as amended.  The receiver of the stored message is the receiverId
    of the request body: for every authenticated user, participant of the
    order or not, a body with string orderId, receiverId and message that
    names an existing order and an existing user as receiver, participant
    or not, is stored with that receiver and answered 201.  No request to
    POST /api/chats is answered 403. *)
Theorem post_chats_receiver_from_body env st clients user m
    orderId receiverId message :
  m !! "orderId" = Some (JStr orderId) →
  m !! "receiverId" = Some (JStr receiverId) →
  m !! "message" = Some (JStr message) →
  m !! "isRead" = None →
  gen_random_uuid env ∉ c_id <$> chats st →
  order_exists st orderId = true →
  user_exists st (u_id user) = true →
  user_exists st receiverId = true →
  (∃ st' chat,
     post_chats env st clients (Some user) (JObj m)
       = (st', broadcast (chat_message chat) clients,
          mkResponse 201 (ChatJson chat))
     ∧ chats st' = chats st ++ [chat]
     ∧ c_orderId chat = orderId
     ∧ c_senderId chat = u_id user
     ∧ c_receiverId chat = receiverId)
  ∧ (∀ req_user body,
       res_status (post_chats env st clients req_user body).2 ≠ 403).
Proof.
  intros Ho Hr Hm Hi Hfresh Horder Hsender Hreceiver. split.
  - unfold post_chats; simpl.
    rewrite (insertChatSchema_parse_fields _ _ _ _ _ Ho Hr Hm Hi). simpl.
    unfold createChat; simpl.
    rewrite bool_decide_eq_true_2, Horder, Hsender, Hreceiver by done. simpl.
    by do 2 eexists.
  - intros [u|] body; [|done]. unfold post_chats.
    destruct (_ ≫= _) as [[st' chat]|]; done.
Qed.

Lemma post_chats_receiver_from_body_witness :
  ∃ st' chat,
    post_chats env store [] (Some customer2)
        (chat_body "o-1" "u-delivery2" "hi")
      = (st', broadcast (chat_message chat) [], mkResponse 201 (ChatJson chat))
    ∧ chats st' = chats store ++ [chat]
    ∧ c_orderId chat = "o-1"
    ∧ c_senderId chat = u_id customer2
    ∧ c_receiverId chat = "u-delivery2".
Proof.
  apply (post_chats_receiver_from_body env store [] customer2
           (spread (chat_body "o-1" "u-delivery2" "hi"))
           "o-1" "u-delivery2" "hi");
    try reflexivity.
  vm_compute. intros Hin. inversion Hin.
Defined.

(** C4, as stated, fails: customer2 takes no part in the order o-1, and
    neither does delivery2; customer2's message to delivery2 on o-1 is
    stored with the receiver the body names and answered 201. *)
Lemma post_chats_outsider_to_outsider :
  Spec.participant store order1 "u-customer2" = false
  ∧ Spec.participant store order1 "u-delivery2" = false
  ∧ ∃ st' chat,
      post_chats env store [] (Some customer2)
          (chat_body "o-1" "u-delivery2" "hi")
        = (st', [], mkResponse 201 (ChatJson chat))
      ∧ chats st' = [chat]
      ∧ c_senderId chat = "u-customer2"
      ∧ c_receiverId chat = "u-delivery2".
Proof. split; [done|]. split; [done|]. do 2 eexists. repeat split; reflexivity. Qed.

(** The receiver the chat widget puts in the body: the assigned delivery
    agent, else the vendor id, for a customer; the customer for a vendor or
    a delivery agent; an admin sends nothing. *)
Lemma handleSendMessage_receiver user orders selected message body :
  handleSendMessage (Some user) orders (Some selected) message = Some body →
  ∃ order receiverId,
    head (filter (fun o => o_id o = selected) orders) = Some order
    ∧ body = chat_body selected receiverId (trim message)
    ∧ receiverId =
        match u_role user with
        | RoleUser =>
            match o_deliveryPersonId order with
            | Some d => if String.eqb d EmptyString then o_vendorId order else d
            | None => o_vendorId order
            end
        | _ => o_userId order
        end.
Proof.
  unfold handleSendMessage. intros Hh.
  destruct (String.eqb (trim message) EmptyString); [done|].
  destruct (String.eqb selected EmptyString); [done|].
  destruct (head _) as [order|]; [|done].
  exists order. simpl in Hh.
  destruct (u_role user); simpl in Hh; try done;
    (destruct (String.eqb _ EmptyString) in Hh; [done|]); simplify_eq; eauto.
Qed.

(** The widget of a customer whose order has no delivery agent yet names
    the vendor record's id as receiver; chats.receiverId references
    users.id, the insert is refused and the handler answers 400. *)
Example post_chats_widget_customer_to_vendor :
  handleSendMessage (Some customer1) [order1; order2] (Some "o-1") " hello "
  = Some (chat_body "o-1" "v-1" "hello")
  ∧ post_chats env store [] (Some customer1) (chat_body "o-1" "v-1" "hello")
    = (store, [], mkResponse 400 (Message "Invalid chat data")).
Proof. split; reflexivity. Qed.

(** ** The event channel *)

(** Every open client is sent the frame, whatever order it joined. *)
Lemma broadcast_lookup f clients i ws :
  clients !! i = Some ws →
  broadcast f clients !! i
  = Some (if decide (readyState ws = OPEN) then ws_send f ws else ws).
Proof. intros Hi. unfold broadcast. by rewrite list_lookup_fmap, Hi. Qed.

Lemma broadcast_open_receives f clients i ws :
  clients !! i = Some ws →
  readyState ws = OPEN →
  ws_sent <$> broadcast f clients !! i = Some (ws_sent ws ++ [f])
  ∧ ws_orderId <$> broadcast f clients !! i = Some (ws_orderId ws).
Proof.
  intros Hi Hopen. rewrite (broadcast_lookup _ _ _ _ Hi).
  by rewrite decide_True.
Qed.

(** C3 fails on the code.  Two sessions connect; the first joins order o-1,
    the second order o-2.  delivery1 then posts a chat message on o-2: the
    frame is sent to the session that joined o-1 alone, as it is to every
    open session. *)
Theorem post_chats_reaches_other_orders_session :
  let clients :=
    ws_on_message 1 (Some (join_frame "o-2"))
      (ws_on_message 0 (Some (join_frame "o-1"))
         (wss_on_connection (Some customer2)
            (wss_on_connection (Some customer1) []))) in
  ∃ st' clients' chat,
    post_chats env store clients (Some delivery1)
        (chat_body "o-2" "u-customer1" "On my way")
      = (st', clients', mkResponse 201 (ChatJson chat))
    ∧ c_orderId chat = "o-2"
    ∧ ws_orderId <$> clients' !! 0 = Some (Some (JStr "o-1"))
    ∧ ws_sent <$> clients' !! 0 = Some [chat_message chat]
    ∧ ws_orderId <$> clients' !! 1 = Some (Some (JStr "o-2"))
    ∧ ws_sent <$> clients' !! 1 = Some [chat_message chat].
Proof. do 3 eexists. repeat split; reflexivity. Qed.

(** C7, as amended.  The channel takes a frame whose [type] is
    "join_order" from any connected client, whoever opened the connection,
    authenticated or not, and records the frame's [orderId] on the session;
    no subscribe request is rejected.  A frame with no [type], such as one
    that carries [action] instead, changes nothing. *)
Theorem ws_join_order_recorded_for_any_actor actor clients m :
  (m !! "type" = Some (JStr "join_order") →
   ws_on_message (length clients) (Some (JObj m))
     (wss_on_connection actor clients)
   = clients ++ [ {| readyState := OPEN; ws_orderId := m !! "orderId";
                     ws_sent := [] |} ])
  ∧ (m !! "type" = None →
     ∀ i, ws_on_message i (Some (JObj m)) clients = clients).
Proof.
  split.
  - intros Htype. unfold ws_on_message, wss_on_connection.
    replace (length clients) with (length clients + 0) by lia.
    rewrite alter_app_r. simpl. by rewrite Htype.
  - intros Htype i. unfold ws_on_message.
    apply list_eq. intros j.
    rewrite list_lookup_alter. unfold ws_message_try; simpl. rewrite Htype.
    case_decide; [|done]. subst j. by destruct (clients !! i).
Qed.

Lemma ws_join_order_recorded_for_any_actor_witness :
  ws_on_message 0 (Some (join_frame "o-1")) (wss_on_connection (Some customer2) [])
  = [ {| readyState := OPEN; ws_orderId := Some (JStr "o-1"); ws_sent := [] |} ]
  ∧ ∀ i, ws_on_message i (Some (Spec.subscribe_frame "o-1"))
           (wss_on_connection (Some customer1) [])
         = wss_on_connection (Some customer1) [].
Proof.
  split.
  - apply (ws_join_order_recorded_for_any_actor (Some customer2) []
             (spread (join_frame "o-1"))).
    reflexivity.
  - apply (ws_join_order_recorded_for_any_actor (Some customer1)
             (wss_on_connection (Some customer1) [])
             (spread (Spec.subscribe_frame "o-1"))).
    reflexivity.
Defined.

(** C7, as stated, fails twice: the session of customer1, the customer of
    o-1, sends the frame [{ action: "join_order", orderId: "o-1" }] and is
    not subscribed; the session of customer2, no participant of o-1, sends
    [{ type: "join_order", orderId: "o-1" }] and is. *)
Lemma ws_action_frame_ignored_outsider_joined :
  Spec.participant store order1 "u-customer1" = true
  ∧ ws_orderId <$>
      ws_on_message 0 (Some (Spec.subscribe_frame "o-1"))
        (wss_on_connection (Some customer1) []) !! 0
    = Some None
  ∧ Spec.participant store order1 "u-customer2" = false
  ∧ ws_orderId <$>
      ws_on_message 0 (Some (join_frame "o-1"))
        (wss_on_connection (Some customer2) []) !! 0
    = Some (Some (JStr "o-1")).
Proof. repeat split; reflexivity. Qed.

(** The frame the client hook sends nests the order id under [data]: the
    handler reads no [orderId] from it. *)
Example ws_joinOrderRoom_frame :
  ws_orderId <$>
    ws_on_message 0 (Some (joinOrderRoom "o-1"))
      (wss_on_connection (Some customer1) []) !! 0
  = Some None.
Proof. reflexivity. Qed.

(** ** comparePasswords *)

Section ComparePasswords.

Context (scrypt : string → string → nat → option (list Byte.byte)).

(** scrypt derives a key of the length it is asked for. *)
Hypothesis scrypt_keylen :
  ∀ password salt keylen key,
    scrypt password salt keylen = Some key → length key = keylen.

Lemma comparePasswords_bcrypt supplied stored :
  String.prefix "$2a$" stored || String.prefix "$2b$" stored
    || String.prefix "$2y$" stored = true →
  comparePasswords scrypt supplied stored = false.
Proof. intros Hp. unfold comparePasswords. by rewrite Hp. Qed.

Lemma comparePasswords_parts supplied stored :
  length (split_dot stored) ≠ 2 →
  comparePasswords scrypt supplied stored = false.
Proof.
  intros Hlen. unfold comparePasswords.
  destruct (_ || _); [done|].
  by destruct (split_dot stored) as [|hashed [|salt [|? ?]]].
Qed.

Lemma comparePasswords_hash_length supplied stored hashed salt :
  split_dot stored = [hashed; salt] →
  length (Buffer_from_hex hashed) ≠ 64 →
  comparePasswords scrypt supplied stored = false.
Proof.
  intros Hsplit Hlen. unfold comparePasswords.
  destruct (_ || _); [done|]. rewrite Hsplit.
  destruct (String.eqb salt EmptyString); [done|].
  destruct (scrypt supplied salt 64) as [key|] eqn:Hkey; [|done].
  apply scrypt_keylen in Hkey. simpl. unfold timingSafeEqual.
  rewrite decide_False; [done|congruence].
Qed.

(** A verify callback whose comparePasswords answers false fails. *)
Lemma verify_rejected st username supplied user :
  getUserByUsername st username = Some user →
  comparePasswords scrypt supplied (u_password user) = false →
  verify scrypt st username supplied = None.
Proof. intros Hu Hc. unfold verify. by rewrite Hu, Hc. Qed.

End ComparePasswords.

(** C10, as amended.  comparePasswords always returns, and returns false,
    for every stored password that starts with "$2a$", "$2b$" or "$2y$", or
    that does not split into exactly two parts at ".", or whose hash part
    does not decode, as Buffer.from(hashed, "hex") decodes it, dropping
    everything from the first pair that is not two hex digits, to exactly
    64 bytes; the login of a user with such a stored password fails
    whatever password is supplied. *)
Theorem comparePasswords_rejects_malformed scrypt supplied stored :
  (∀ password salt keylen key,
     scrypt password salt keylen = Some key → length key = keylen) →
  String.prefix "$2a$" stored = true ∨ String.prefix "$2b$" stored = true
  ∨ String.prefix "$2y$" stored = true
  ∨ length (split_dot stored) ≠ 2
  ∨ (∃ hashed salt, split_dot stored = [hashed; salt]
                    ∧ length (Buffer_from_hex hashed) ≠ 64) →
  comparePasswords scrypt supplied stored = false
  ∧ ∀ st username user,
      getUserByUsername st username = Some user →
      u_password user = stored →
      verify scrypt st username supplied = None.
Proof.
  intros Hkeylen Hbad.
  assert (comparePasswords scrypt supplied stored = false) as Hfalse.
  { destruct Hbad as [Hp|[Hp|[Hp|[Hparts|(hashed & salt & Hsplit & Hlen)]]]].
    - apply comparePasswords_bcrypt. by rewrite Hp.
    - apply comparePasswords_bcrypt. by rewrite Hp, orb_true_r.
    - apply comparePasswords_bcrypt. by rewrite Hp, orb_true_r.
    - by apply comparePasswords_parts.
    - by eapply comparePasswords_hash_length. }
  split; [done|].
  intros st username user Hu <-. by apply (verify_rejected _ _ _ _ user).
Qed.

Lemma demo_scrypt_keylen password salt keylen key :
  demo_scrypt password salt keylen = Some key → length key = keylen.
Proof.
  unfold demo_scrypt. case_decide as Hcase; intros [= <-].
  - by destruct Hcase as (_ & _ & ->).
  - apply length_replicate.
Qed.

Lemma comparePasswords_rejects_malformed_witness :
  comparePasswords demo_scrypt "admin123" "deadbeef.73616c74" = false
  ∧ ∀ st username user,
      getUserByUsername st username = Some user →
      u_password user = "deadbeef.73616c74" →
      verify demo_scrypt st username "admin123" = None.
Proof.
  apply (comparePasswords_rejects_malformed demo_scrypt "admin123"
           "deadbeef.73616c74" demo_scrypt_keylen).
  do 4 right. exists "deadbeef", "73616c74". split; [reflexivity|].
  vm_compute. lia.
Defined.

(** Hex digits and the decoding of what toString("hex") wrote. *)
Lemma Buffer_from_hex_toString_hex key rest :
  Buffer_from_hex (Buffer_toString_hex key +:+ rest)
  = key ++ Buffer_from_hex rest.
Proof.
  induction key as [|b key IH]; [done|].
  transitivity (b :: Buffer_from_hex (Buffer_toString_hex key +:+ rest)).
  - by destruct b.
  - by rewrite IH.
Qed.

Lemma split_dot_head_tail s :
  split_dot s = hd EmptyString (split_dot s) :: tail (split_dot s).
Proof.
  destruct s as [|c s]; [done|]. simpl.
  destruct (Ascii.eqb c "."); [done|]. by destruct (split_dot s).
Qed.

Lemma split_dot_cons c s :
  c ≠ "."%char →
  split_dot (String c s)
  = String c (hd EmptyString (split_dot s)) :: tail (split_dot s).
Proof.
  intros Hc. simpl. rewrite (proj2 (Ascii.eqb_neq c "."%char) Hc).
  by rewrite (split_dot_head_tail s).
Qed.

Lemma hex_digits_no_dot b :
  hex_digit (Byte.to_N b / 16) ≠ "."%char
  ∧ hex_digit (Byte.to_N b mod 16) ≠ "."%char.
Proof. destruct b; split; vm_compute; discriminate. Qed.

Lemma split_dot_toString_hex key rest :
  split_dot (Buffer_toString_hex key +:+ rest)
  = (Buffer_toString_hex key +:+ hd EmptyString (split_dot rest))
      :: tail (split_dot rest).
Proof.
  induction key as [|b key IH]; [apply split_dot_head_tail|].
  destruct (hex_digits_no_dot b) as [Hhi Hlo].
  change (split_dot (Buffer_toString_hex (b :: key) +:+ rest))
    with (split_dot
            (String (hex_digit (Byte.to_N b / 16))
               (String (hex_digit (Byte.to_N b mod 16))
                  (Buffer_toString_hex key +:+ rest)))).
  by rewrite !split_dot_cons, IH by done.
Qed.

Lemma split_dot_no_dot s :
  "."%char ∉ String.list_ascii_of_string s → split_dot s = [s].
Proof.
  induction s as [|c s IH]; [done|]. simpl. intros Hnot.
  apply not_elem_of_cons in Hnot as [Hc Hs].
  rewrite (proj2 (Ascii.eqb_neq c "."%char)) by done.
  by rewrite IH.
Qed.

Lemma prefix_toString_hex p key rest :
  key ≠ [] →
  String.prefix (String "$" p) (Buffer_toString_hex key +:+ rest) = false.
Proof. destruct key as [|b key]; [done|]. intros _. by destruct b. Qed.

(** Why the hash part has to be judged by its decoding: when the 128 digits of
    the right key are followed by characters that are no hex digits, the
    hash part is not valid hex, and yet, for any key derivation, the right
    password is accepted. *)
Lemma comparePasswords_hex_then_garbage scrypt supplied salt key :
  scrypt supplied salt 64 = Some key →
  length key = 64 →
  salt ≠ EmptyString →
  "."%char ∉ String.list_ascii_of_string salt →
  comparePasswords scrypt supplied
    (Buffer_toString_hex key +:+ "zz." +:+ salt) = true.
Proof.
  intros Hkey Hlen Hsalt Hdot. unfold comparePasswords.
  assert (key ≠ []) as Hne by (by destruct key).
  rewrite !prefix_toString_hex by done. simpl orb. cbv iota.
  rewrite split_dot_toString_hex.
  change ("zz." +:+ salt) with (String "z" (String "z" (String "." salt))).
  rewrite !split_dot_cons by done.
  change (split_dot (String "." salt)) with (EmptyString :: split_dot salt).
  rewrite (split_dot_no_dot _ Hdot). cbn [hd tail].
  destruct (String.eqb salt EmptyString) eqn:Heq; [by apply String.eqb_eq in Heq|].
  rewrite Hkey. simpl.
  rewrite Buffer_from_hex_toString_hex. simpl. rewrite app_nil_r.
  unfold timingSafeEqual. rewrite decide_True by done. simpl.
  by rewrite bool_decide_eq_true_2.
Qed.

Lemma split_dot_hex key :
  split_dot (Buffer_toString_hex key) = [Buffer_toString_hex key].
Proof.
  induction key as [|b key IH]; [done|].
  destruct (hex_digits_no_dot b) as [Hhi Hlo].
  change (Buffer_toString_hex (b :: key))
    with (String (hex_digit (Byte.to_N b / 16))
            (String (hex_digit (Byte.to_N b mod 16)) (Buffer_toString_hex key))).
  by rewrite !split_dot_cons, IH by done.
Qed.

(** X1.  What hashPassword stores, comparePasswords accepts for the same
    password. *)
Lemma comparePasswords_hashPassword scrypt salt_bytes password stored :
  salt_bytes ≠ [] →
  hashPassword scrypt salt_bytes password = Some stored →
  comparePasswords scrypt password stored = true.
Proof.
  intros Hsalt. unfold hashPassword.
  destruct (scrypt password (Buffer_toString_hex salt_bytes) 64)
    as [key|] eqn:Hkey; [|done].
  intros [= <-]. unfold comparePasswords.
  assert (String.prefix "$2a$" (Buffer_toString_hex key +:+ "."
                                 +:+ Buffer_toString_hex salt_bytes)
          || String.prefix "$2b$" (Buffer_toString_hex key +:+ "."
                                   +:+ Buffer_toString_hex salt_bytes)
          || String.prefix "$2y$" (Buffer_toString_hex key +:+ "."
                                   +:+ Buffer_toString_hex salt_bytes) = false) as ->.
  { destruct key as [|b key]; [done|]. by rewrite !prefix_toString_hex. }
  rewrite split_dot_toString_hex.
  change (split_dot ("." +:+ Buffer_toString_hex salt_bytes))
    with (EmptyString :: split_dot (Buffer_toString_hex salt_bytes)).
  rewrite split_dot_hex. cbn [hd tail].
  assert (String.eqb (Buffer_toString_hex salt_bytes) EmptyString = false) as ->.
  { by destruct salt_bytes. }
  rewrite Hkey. simpl.
  rewrite Buffer_from_hex_toString_hex. simpl. rewrite app_nil_r.
  unfold timingSafeEqual. rewrite decide_True by done. simpl.
  by rewrite bool_decide_eq_true_2.
Qed.

(** C10, as stated, fails: the stored hash part is the 128 hex digits of
    the key scrypt derives from admin123 and the salt, followed by "zz",
    which makes it 130 characters that are not valid hex; Buffer.from
    decodes the 64 bytes of the key and drops the rest, and admin123 logs
    in. *)
Lemma comparePasswords_accepts_invalid_hex :
  let stored := admin123_key_hex +:+ "zz." +:+ admin123_salt in
  Spec.wellformed_scrypt_record stored = false
  ∧ length (split_dot stored) = 2
  ∧ demo_scrypt "admin123" admin123_salt 64
    = Some (Buffer_from_hex admin123_key_hex)
  ∧ comparePasswords demo_scrypt "admin123" stored = true.
Proof. vm_compute. done. Qed.

(** * Further properties of the code *)

Import Demo2.

(** ** Passwords and login *)

(** comparePasswords on a string of the shape hashPassword writes. *)
Lemma comparePasswords_hex_record scrypt supplied key salt_bytes :
  salt_bytes ≠ [] →
  comparePasswords scrypt supplied
    (Buffer_toString_hex key +:+ "." +:+ Buffer_toString_hex salt_bytes)
  = match scrypt supplied (Buffer_toString_hex salt_bytes) 64 with
    | Some suppliedBuf => bool_decide (key = suppliedBuf)
    | None => false
    end.
Proof.
  intros Hsalt. unfold comparePasswords.
  assert (String.prefix "$2a$" (Buffer_toString_hex key +:+ "."
                                 +:+ Buffer_toString_hex salt_bytes)
          || String.prefix "$2b$" (Buffer_toString_hex key +:+ "."
                                   +:+ Buffer_toString_hex salt_bytes)
          || String.prefix "$2y$" (Buffer_toString_hex key +:+ "."
                                   +:+ Buffer_toString_hex salt_bytes) = false) as ->.
  { destruct key as [|b key]; [done|]. by rewrite !prefix_toString_hex. }
  rewrite split_dot_toString_hex.
  change (split_dot ("." +:+ Buffer_toString_hex salt_bytes))
    with (EmptyString :: split_dot (Buffer_toString_hex salt_bytes)).
  rewrite split_dot_hex. cbn [hd tail].
  assert (String.eqb (Buffer_toString_hex salt_bytes) EmptyString = false) as ->.
  { by destruct salt_bytes. }
  rewrite Buffer_from_hex_toString_hex. simpl. rewrite app_nil_r.
  destruct (scrypt supplied _ 64) as [suppliedBuf|]; [|done]. simpl.
  unfold timingSafeEqual. case_decide as Hlen; simpl; [done|].
  symmetry. apply bool_decide_eq_false. by intros ->.
Qed.

(** X2.  Against a password record that hashPassword wrote, a supplied
    password is accepted exactly when scrypt derives from it, with the
    record's salt, the key scrypt derived from the original password. *)
Theorem comparePasswords_hashed_iff scrypt salt_bytes password stored supplied :
  salt_bytes ≠ [] →
  hashPassword scrypt salt_bytes password = Some stored →
  comparePasswords scrypt supplied stored = true
  ↔ scrypt supplied (Buffer_toString_hex salt_bytes) 64
    = scrypt password (Buffer_toString_hex salt_bytes) 64.
Proof.
  intros Hsalt. unfold hashPassword.
  destruct (scrypt password (Buffer_toString_hex salt_bytes) 64)
    as [key|] eqn:Hkey; [|done].
  intros [= <-]. rewrite comparePasswords_hex_record by done.
  destruct (scrypt supplied _ 64) as [suppliedBuf|].
  - rewrite bool_decide_eq_true. split; [by intros ->|by intros [= ->]].
  - split; discriminate.
Qed.

Lemma comparePasswords_hashed_iff_witness :
  comparePasswords demo_scrypt "admin123"
    (admin123_key_hex +:+ "." +:+ admin123_salt) = true
  ∧ comparePasswords demo_scrypt "admin124"
      (admin123_key_hex +:+ "." +:+ admin123_salt) = false.
Proof.
  pose proof (comparePasswords_hashed_iff demo_scrypt
                (Buffer_from_hex admin123_salt) "admin123"
                (admin123_key_hex +:+ "." +:+ admin123_salt)) as Hiff.
  split.
  - apply Hiff; [discriminate|reflexivity|reflexivity].
  - apply not_true_is_false. intros Hacc.
    apply Hiff in Hacc; [discriminate Hacc|discriminate|reflexivity].
Defined.

Lemma comparePasswords_hashPassword_witness :
  comparePasswords demo_scrypt "admin123"
    (admin123_key_hex +:+ "." +:+ admin123_salt) = true.
Proof.
  apply (comparePasswords_hashPassword demo_scrypt
           (Buffer_from_hex admin123_salt) "admin123");
    [discriminate|reflexivity].
Defined.

(** X3.  The verify callback hands over a user only if that user is the
    stored row selected by the username and comparePasswords accepts the
    password against that row's password. *)
Theorem verify_Some scrypt st username password user :
  verify scrypt st username password = Some user →
  user ∈ users st
  ∧ u_username user = username
  ∧ getUserByUsername st username = Some user
  ∧ comparePasswords scrypt password (u_password user) = true.
Proof.
  unfold verify. intros Hv.
  destruct (getUserByUsername st username) as [u|] eqn:Hu; [|done].
  destruct (comparePasswords scrypt password (u_password u)) eqn:Hc; [|done].
  simpl in Hv. injection Hv as <-.
  unfold getUserByUsername, select_first in Hu.
  apply head_Some_elem_of, list_elem_of_filter in Hu as [Hname Hin].
  by repeat split.
Qed.

Lemma verify_Some_witness :
  let st := {| users := [mkUser "u-admin" "admin"
                           (admin123_key_hex +:+ "." +:+ admin123_salt)
                           "admin@eclick.com" RoleAdmin true];
               vendors := []; orders := []; chats := []; orderItems := [] |} in
  ∃ user,
    verify demo_scrypt st "admin" "admin123" = Some user
    ∧ user ∈ users st
    ∧ u_username user = "admin"
    ∧ getUserByUsername st "admin" = Some user
    ∧ comparePasswords demo_scrypt "admin123" (u_password user) = true.
Proof.
  eexists. split; [reflexivity|].
  apply (verify_Some demo_scrypt). reflexivity.
Defined.

(** X4.  A user whose stored password is what hashPassword made of a
    password logs in with that password. *)
Theorem verify_hashPassword scrypt st username salt_bytes password user :
  getUserByUsername st username = Some user →
  salt_bytes ≠ [] →
  hashPassword scrypt salt_bytes password = Some (u_password user) →
  verify scrypt st username password = Some user.
Proof.
  intros Hu Hsalt Hhash. unfold verify. rewrite Hu.
  unfold hashPassword in Hhash.
  destruct (scrypt password (Buffer_toString_hex salt_bytes) 64)
    as [key|] eqn:Hkey; [|done].
  injection Hhash as Hstored. rewrite <- Hstored.
  rewrite comparePasswords_hex_record, Hkey by done.
  by rewrite bool_decide_eq_true_2.
Qed.

Lemma verify_hashPassword_witness :
  let admin_row := mkUser "u-admin" "admin"
                     (admin123_key_hex +:+ "." +:+ admin123_salt)
                     "admin@eclick.com" RoleAdmin true in
  verify demo_scrypt
    {| users := [admin_row]; vendors := []; orders := []; chats := [];
       orderItems := [] |}
    "admin" "admin123"
  = Some admin_row.
Proof.
  apply (verify_hashPassword demo_scrypt _ "admin"
           (Buffer_from_hex admin123_salt) "admin123");
    [reflexivity|discriminate|reflexivity].
Defined.

(** ** GET /api/orders *)

Lemma elem_of_orderBy_desc_createdAt order rows :
  order ∈ orderBy_desc_createdAt rows ↔ order ∈ rows.
Proof. unfold orderBy_desc_createdAt. by rewrite merge_sort_Permutation. Qed.

Lemma Sorted_orderBy_desc_createdAt rows :
  Sorted order_not_before (orderBy_desc_createdAt rows).
Proof.
  apply Sorted_merge_sort. intros a b. unfold order_not_before. lia.
Qed.

(** X5.  GET /api/orders answers an authenticated user with exactly the
    orders of the table that the role's query selects: all of them for an
    admin, those of the vendor record of a vendor (none when the user has
    no vendor record), those assigned to a delivery user, those placed by
    any other user; newest first. *)
Theorem get_orders_visibility st user :
  ∃ listed,
    get_orders st (Some user) = mkReply 200 (Data listed)
    ∧ Sorted order_not_before listed
    ∧ ∀ order,
        order ∈ listed ↔
          order ∈ orders st
          ∧ match u_role user with
            | RoleAdmin => True
            | RoleVendor =>
                ∃ vendor, getVendorByUserId st (u_id user) = Some vendor
                          ∧ o_vendorId order = v_id vendor
            | RoleDelivery => o_deliveryPersonId order = Some (u_id user)
            | RoleUser => o_userId order = u_id user
            end.
Proof.
  unfold get_orders. eexists. split; [reflexivity|].
  destruct (u_role user).
  - split; [apply Sorted_orderBy_desc_createdAt|].
    intros order. unfold getAllOrders.
    rewrite elem_of_orderBy_desc_createdAt. tauto.
  - destruct (getVendorByUserId st (u_id user)) as [vendor|].
    + split; [apply Sorted_orderBy_desc_createdAt|].
      intros order. unfold getOrdersByVendor.
      rewrite elem_of_orderBy_desc_createdAt, list_elem_of_filter.
      split.
      * intros [? ?]. split; [done|]. by exists vendor.
      * intros [? (v & [= <-] & ?)]. done.
    + split; [constructor|].
      intros order. split; [by intros ?%elem_of_nil|].
      by intros [_ (v & [=] & _)].
  - split; [apply Sorted_orderBy_desc_createdAt|].
    intros order. unfold getOrdersByDeliveryPerson.
    rewrite elem_of_orderBy_desc_createdAt, list_elem_of_filter. tauto.
  - split; [apply Sorted_orderBy_desc_createdAt|].
    intros order. unfold getOrdersByUser.
    rewrite elem_of_orderBy_desc_createdAt, list_elem_of_filter. tauto.
Qed.

(** X6.  Every order GET /api/orders lists for a user passes the
    permission check of PUT /api/orders/:id for that user. *)
Theorem get_orders_listed_canUpdate st user listed order :
  get_orders st (Some user) = mkReply 200 (Data listed) →
  order ∈ listed →
  canUpdate st user order = true.
Proof.
  intros Hget Hin.
  destruct (get_orders_visibility st user) as (listed' & Hget' & _ & Hvis).
  rewrite Hget in Hget'. injection Hget' as <-.
  apply Hvis in Hin as [_ Hrole].
  apply canUpdate_true_iff.
  destruct (u_role user) eqn:Hr.
  - by left.
  - destruct Hrole as (vendor & Hvendor & Hid).
    do 3 right. split; [done|]. by exists vendor.
  - right. right. by left.
  - right. by left.
Qed.

Lemma get_orders_listed_canUpdate_witness :
  get_orders store (Some vendor1) = mkReply 200 (Data [order1; order2])
  ∧ canUpdate store vendor1 order1 = true.
Proof.
  split; [reflexivity|].
  apply (get_orders_listed_canUpdate store vendor1 [order1; order2] order1);
    [reflexivity|].
  apply list_elem_of_In. left. reflexivity.
Defined.

(** ** What PUT /api/orders/:id leaves alone *)


(** X8.  A PUT /api/orders/:id that is not answered 200 has written
    nothing. *)
Theorem put_orders_id_failure_writes_nothing env st req_user id body :
  res_status (put_orders_id env st req_user id body).2 ≠ 200 →
  (put_orders_id env st req_user id body).1 = st.
Proof.
  unfold put_orders_id.
  destruct req_user as [user|]; [|done].
  destruct (getOrder st id) as [found|]; [|done].
  destruct (canUpdate st user found); [|done]. simpl.
  by destruct (updateOrder env st id body) as [[st' updated]|].
Qed.

Lemma put_orders_id_failure_writes_nothing_witness :
  (put_orders_id env store (Some customer2) "o-1" (status_body cancelled)).1
  = store.
Proof.
  apply (put_orders_id_failure_writes_nothing env store (Some customer2) "o-1"
           (status_body cancelled)).
  vm_compute. discriminate.
Defined.

(** ** POST /api/orders: the items *)

Lemma create_items_frame env orderId items :
  ∀ st, let st' := (create_items env st orderId items).1 in
        users st' = users st ∧ vendors st' = vendors st
        ∧ orders st' = orders st ∧ chats st' = chats st.
Proof.
  induction items as [|item items IH]; intros st; [done|].
  simpl. unfold createOrderItem.
  destruct (pg_order_item env _); simpl; [|done].
  destruct (IH (with_orderItems st
                  (orderItems st ++ [<["orderId" := JStr orderId]> (spread item)])))
    as (? & ? & ? & ?).
  done.
Qed.

Lemma createOrder_frame env st order st' newOrder :
  createOrder env st order = Some (st', newOrder) →
  users st' = users st ∧ vendors st' = vendors st
  ∧ chats st' = chats st ∧ orderItems st' = orderItems st.
Proof.
  unfold createOrder. intros Hc.
  destruct (pg_numeric env (io_totalAmount order)); [|done].
  destruct (pg_numeric env (default "0" (io_deliveryFee order))); [|done].
  simpl in Hc. case_match; by simplify_eq.
Qed.

(** All items accepted: every row is stored, in the order of the body. *)
Lemma create_items_accepted env orderId items :
  ∀ st,
    Forall (fun row => pg_order_item env row = true) (item_rows orderId items) →
    ∃ st', create_items env st orderId items = (st', true)
           ∧ orderItems st' = orderItems st ++ item_rows orderId items.
Proof.
  induction items as [|item items IH]; intros st Hall.
  - exists st. by rewrite app_nil_r.
  - apply Forall_cons in Hall as [Hitem Hall]. simpl.
    unfold createOrderItem. rewrite Hitem.
    destruct (IH (with_orderItems st
                    (orderItems st ++ [<["orderId" := JStr orderId]> (spread item)]))
                 Hall) as (st' & -> & Hrows).
    exists st'. split; [done|].
    rewrite Hrows. simpl. by rewrite <- app_assoc.
Qed.

(** The loop answers [true] only when every row was accepted. *)
Lemma create_items_true env orderId items :
  ∀ st st',
    create_items env st orderId items = (st', true) →
    Forall (fun row => pg_order_item env row = true) (item_rows orderId items).
Proof.
  induction items as [|item items IH]; intros st st' Hrun; [constructor|].
  simpl in Hrun. unfold createOrderItem in Hrun.
  destruct (pg_order_item env _) eqn:Hitem; [|done].
  constructor; [done|]. eapply IH, Hrun.
Qed.

(** X9.  POST /api/orders runs in no transaction: when the body parses and
    the order is inserted but Postgres refuses one of the items, the
    request is answered 400 "Invalid order data" and the order stays in the
    table. *)
Theorem post_orders_item_refused_order_kept env st user body validated st1 order :
  insertOrderSchema_parse (<["userId" := JStr (u_id user)]> (spread body))
    = Some validated →
  createOrder env st validated = Some (st1, order) →
  Exists (fun row => pg_order_item env row = false)
    (item_rows (o_id order) (body_items body)) →
  res_status (post_orders env st (Some user) body).2 = 400
  ∧ orders (post_orders env st (Some user) body).1 = orders st ++ [order].
Proof.
  intros Hparse Hcreate Hrefused. unfold post_orders.
  rewrite Hparse. simpl. rewrite Hcreate.
  pose proof (create_items_orders env (o_id order) (body_items body) st1) as Horders.
  apply createOrder_Some in Hcreate as [Hst1 _].
  destruct (create_items env st1 (o_id order) (body_items body))
    as [st2 [|]] eqn:Hrun; simpl in *.
  - apply create_items_true in Hrun.
    apply Exists_exists in Hrefused as (row & Hin & Hrow).
    rewrite Forall_forall in Hrun. specialize (Hrun row Hin). congruence.
  - by rewrite Horders.
Qed.

Lemma post_orders_item_refused_order_kept_witness :
  res_status (post_orders env_no_items store (Some customer2)
                (order_body [JObj {["productName" := JStr "Margherita"]}])).2
  = 400
  ∧ length (orders (post_orders env_no_items store (Some customer2)
                      (order_body [JObj {["productName" := JStr "Margherita"]}])).1)
    = 3.
Proof.
  destruct (post_orders_item_refused_order_kept env_no_items store customer2
              (order_body [JObj {["productName" := JStr "Margherita"]}])
              (mkInsertOrder "u-customer2" "v-1" None None "12.00" None None
                 "9 Side Street" "456 Vendor Avenue, City" None None None None)
              (with_orders store
                 (orders store
                  ++ [mkOrder (gen_random_uuid env) (orderNumber env)
                        "u-customer2" "v-1" None pending "12.00" "0" pay_pending
                        "9 Side Street" "456 Vendor Avenue, City" "catalog"
                        None None None (now env)]))
              (mkOrder (gen_random_uuid env) (orderNumber env)
                 "u-customer2" "v-1" None pending "12.00" "0" pay_pending
                 "9 Side Street" "456 Vendor Avenue, City" "catalog"
                 None None None (now env)))
    as [Hstatus Horders].
  - reflexivity.
  - reflexivity.
  - apply Exists_cons_hd. reflexivity.
  - split; [exact Hstatus|]. rewrite Horders. reflexivity.
Defined.

(** X10.  When POST /api/orders is answered 201, the order items stored
    are the items of the body, in their order, each with its orderId set
    to the id of the new order, whatever orderId the item carried. *)
Theorem post_orders_items_attached env st user body st' order :
  post_orders env st (Some user) body
    = (st', mkResponse 201 (OrderJson (Some order))) →
  orderItems st' = orderItems st ++ item_rows (o_id order) (body_items body)
  ∧ Forall (fun row => row !! "orderId" = Some (JStr (o_id order)))
      (item_rows (o_id order) (body_items body))
  ∧ orders st' = orders st ++ [order].
Proof.
  unfold post_orders. intros Hpost.
  destruct (insertOrderSchema_parse _) as [validated|]; [|done]. simpl in Hpost.
  destruct (createOrder env st validated) as [[st1 order1]|] eqn:Hcreate; [|done].
  pose proof (create_items_orders env (o_id order1) (body_items body) st1) as Horders.
  destruct (create_items env st1 (o_id order1) (body_items body))
    as [st2 [|]] eqn:Hrun; [|done].
  injection Hpost as -> ->.
  pose proof (create_items_true _ _ _ _ _ Hrun) as Hall.
  destruct (create_items_accepted env (o_id order) (body_items body) st1 Hall)
    as (st2 & Hrun' & Hrows).
  rewrite Hrun in Hrun'. injection Hrun' as <-.
  pose proof (createOrder_frame _ _ _ _ _ Hcreate) as (_ & _ & _ & Hitems).
  apply createOrder_Some in Hcreate as [Hst1 _].
  split; [|split].
  - by rewrite Hrows, Hitems.
  - unfold item_rows. apply Forall_fmap, Forall_true. intros item.
    simpl. apply lookup_insert_eq.
  - simpl in Horders. by rewrite Horders.
Qed.

Lemma post_orders_items_attached_witness :
  let body := order_body [JObj (<["orderId" := JStr "o-1"]>
                                 {["productName" := JStr "Margherita"]})] in
  orderItems (post_orders env store (Some customer2) body).1
  = [<["orderId" := JStr (gen_random_uuid env)]>
       {["productName" := JStr "Margherita"]}].
Proof.
  intros body.
  destruct (post_orders_items_attached env store customer2 body
              (post_orders env store (Some customer2) body).1
              (mkOrder (gen_random_uuid env) (orderNumber env)
                 "u-customer2" "v-1" None pending "12.00" "0" pay_pending
                 "9 Side Street" "456 Vendor Avenue, City" "catalog"
                 None None None (now env)))
    as (Hitems & _ & _); [reflexivity|].
  rewrite Hitems. reflexivity.
Defined.

Lemma insertOrderSchema_parse_status obj order :
  insertOrderSchema_parse obj = Some order →
  zOptional zOrderStatus (obj !! "status") = Some (io_status order).
Proof.
  unfold insertOrderSchema_parse. intros Hp.
  destruct (zOptional zOrderStatus (obj !! "status")) as [status|];
    by simplify_option_eq.
Qed.

Lemma createOrder_status env st order st' newOrder :
  createOrder env st order = Some (st', newOrder) →
  o_status newOrder = default pending (io_status order).
Proof.
  unfold createOrder. intros Hc.
  destruct (pg_numeric env (io_totalAmount order)); [|done].
  destruct (pg_numeric env (default "0" (io_deliveryFee order))); [|done].
  simpl in Hc. case_match; by simplify_eq.
Qed.

(** X11.  The order POST /api/orders creates starts as pending when the
    body has no status; a body that names a status of the enum starts the
    order in that status. *)
Theorem post_orders_initial_status env st user m st' order :
  post_orders env st (Some user) (JObj m)
    = (st', mkResponse 201 (OrderJson (Some order))) →
  match m !! "status" with
  | None => o_status order = pending
  | Some v => zOrderStatus (Some v) = Some (o_status order)
  end.
Proof.
  unfold post_orders. intros Hpost.
  destruct (insertOrderSchema_parse _) as [validated|] eqn:Hparse; [|done].
  simpl in Hpost.
  destruct (createOrder env st validated) as [[st1 order1]|] eqn:Hcreate; [|done].
  destruct (create_items env st1 (o_id order1) _) as [st2 [|]]; [|done].
  injection Hpost as _ ->.
  apply createOrder_status in Hcreate.
  apply insertOrderSchema_parse_status in Hparse.
  simpl in Hparse. rewrite lookup_insert_ne in Hparse by done.
  destruct (m !! "status") as [v|]; simpl in Hparse.
  - destruct (zOrderStatus (Some v)) as [s|]; [|done].
    simpl in Hparse. injection Hparse as Hs. rewrite <- Hs in Hcreate.
    by rewrite Hcreate.
  - injection Hparse as Hs. by rewrite <- Hs in Hcreate.
Qed.

Lemma post_orders_initial_status_witness :
  let body := <["status" := JStr "delivered"]> (spread (order_body [])) in
  let order := mkOrder (gen_random_uuid env) (orderNumber env)
                 "u-customer2" "v-1" None delivered "12.00" "0" pay_pending
                 "9 Side Street" "456 Vendor Avenue, City" "catalog"
                 None None None (now env) in
  (post_orders env store (Some customer2) (JObj body)).2
  = mkResponse 201 (OrderJson (Some order))
  ∧ zOrderStatus (Some (JStr "delivered")) = Some (o_status order).
Proof.
  intros body order. split; [reflexivity|].
  exact (post_orders_initial_status env store customer2 body
           (post_orders env store (Some customer2) (JObj body)).1 order eq_refl).
Defined.

(** ** Chats *)

Lemma elem_of_getChatsByOrder st orderId chat :
  chat ∈ getChatsByOrder st orderId ↔ chat ∈ chats st ∧ c_orderId chat = orderId.
Proof.
  unfold getChatsByOrder.
  rewrite merge_sort_Permutation, list_elem_of_filter. tauto.
Qed.

(** X12.  A chat that POST /api/chats answered with 201 is in the answer
    of GET /api/orders/:orderId/chats for its order, for every
    authenticated reader. *)
Theorem post_chats_then_get env st clients user body st' clients' chat reader :
  post_chats env st clients (Some user) body
    = (st', clients', mkResponse 201 (ChatJson chat)) →
  ∃ listed,
    get_orders_chats st' (Some reader) (c_orderId chat)
      = mkReply 200 (Data listed)
    ∧ chat ∈ listed.
Proof.
  unfold post_chats. intros Hpost.
  destruct (insertChatSchema_parse _) as [validated|]; [|done]. simpl in Hpost.
  destruct (createChat env st validated) as [[st1 chat1]|] eqn:Hcreate; [|done].
  injection Hpost as -> _ ->.
  apply createChat_Some in Hcreate as (Hchats & _).
  eexists. split; [reflexivity|].
  apply elem_of_getChatsByOrder. split; [|done].
  rewrite Hchats. apply elem_of_app. right. by apply list_elem_of_singleton.
Qed.

Lemma post_chats_then_get_witness :
  ∃ listed,
    get_orders_chats
      (post_chats env store [] (Some delivery1)
         (chat_body "o-2" "u-customer1" "On my way")).1.1
      (Some customer2) "o-2"
    = mkReply 200 (Data listed)
    ∧ mkChat (gen_random_uuid env) "o-2" "u-delivery1" "u-customer1"
        "On my way" false (now env) ∈ listed.
Proof.
  apply (post_chats_then_get env store [] delivery1
           (chat_body "o-2" "u-customer1" "On my way")
           (post_chats env store [] (Some delivery1)
              (chat_body "o-2" "u-customer1" "On my way")).1.1
           []
           (mkChat (gen_random_uuid env) "o-2" "u-delivery1" "u-customer1"
              "On my way" false (now env))
           customer2).
  reflexivity.
Defined.

(** X13.  GET /api/orders/:orderId/chats makes no difference between
    authenticated users: each is answered with exactly the chats of that
    order, oldest first. *)
Theorem get_orders_chats_any_reader st reader orderId :
  ∃ listed,
    get_orders_chats st (Some reader) orderId = mkReply 200 (Data listed)
    ∧ Sorted chat_not_after listed
    ∧ listed ≡ₚ filter (fun c => c_orderId c = orderId) (chats st)
    ∧ ∀ other, get_orders_chats st (Some other) orderId
               = get_orders_chats st (Some reader) orderId.
Proof.
  eexists. split; [reflexivity|]. split; [|split; [|done]].
  - apply Sorted_merge_sort. intros a b. unfold chat_not_after. lia.
  - apply merge_sort_Permutation.
Qed.

(** X14.  markChatAsRead answers whether a chat has the id; it sets isRead
    on the chats with that id and changes nothing else, and a second call
    changes nothing more. *)
Theorem markChatAsRead_spec st id :
  let st' := (markChatAsRead st id).1 in
  ((markChatAsRead st id).2 = true ↔ id ∈ c_id <$> chats st)
  ∧ users st' = users st ∧ vendors st' = vendors st
  ∧ orders st' = orders st ∧ orderItems st' = orderItems st
  ∧ (∀ i chat, chats st !! i = Some chat →
       chats st' !! i
       = Some (if decide (c_id chat = id) then set_isRead chat else chat))
  ∧ (markChatAsRead st' id).1 = st'.
Proof.
  simpl. split; [|repeat split].
  - rewrite bool_decide_eq_true. split.
    + intros Hne. destruct (filter _ (chats st)) as [|chat l] eqn:Hf; [done|].
      assert (chat ∈ filter (fun c => c_id c = id) (chats st)) as Hin
        by (rewrite Hf; left).
      apply list_elem_of_filter in Hin as [<- Hin].
      by apply list_elem_of_fmap_2.
    + intros (chat & -> & Hin)%list_elem_of_fmap Hnil.
      by eapply filter_nil_not_elem_of.
  - intros i chat Hi. by rewrite list_lookup_fmap, Hi.
  - unfold markChatAsRead, with_chats. simpl. f_equal.
    rewrite <- list_fmap_compose. apply list_fmap_ext.
    intros i chat _. simpl.
    destruct (decide (c_id chat = id)) as [Hid|Hid]; simpl.
    + by rewrite decide_True.
    + by rewrite decide_False.
Qed.

(** ** The event channel, once more *)

(** The frames of successive broadcasts. *)
Lemma broadcast_foldl frames :
  ∀ clients i ws,
    clients !! i = Some ws →
    foldl (fun cs f => broadcast f cs) clients frames !! i
    = Some (if decide (readyState ws = OPEN)
            then {| readyState := readyState ws; ws_orderId := ws_orderId ws;
                    ws_sent := ws_sent ws ++ frames |}
            else ws).
Proof.
  induction frames as [|f frames IH]; intros clients i ws Hi; simpl.
  - rewrite Hi. case_decide; [|done]. rewrite app_nil_r. by destruct ws.
  - rewrite (IH (broadcast f clients) i _ (broadcast_lookup f clients i ws Hi)).
    destruct (decide (readyState ws = OPEN)) as [Hopen|Hnot]; simpl.
    + rewrite decide_True by done. simpl. by rewrite <- app_assoc.
    + by rewrite decide_False.
Qed.

(** X15.  Over any number of broadcasts, a client that is OPEN is sent
    every frame once, after the frames it had and in the order of the
    broadcasts; a client in another state is sent none; no client is added
    or dropped and no client's orderId changes. *)
Theorem broadcast_frames_in_order clients frames :
  let clients' := foldl (fun cs f => broadcast f cs) clients frames in
  length clients' = length clients
  ∧ ∀ i ws,
      clients !! i = Some ws →
      ∃ ws',
        clients' !! i = Some ws'
        ∧ readyState ws' = readyState ws
        ∧ ws_orderId ws' = ws_orderId ws
        ∧ ws_sent ws'
          = if decide (readyState ws = OPEN) then ws_sent ws ++ frames
            else ws_sent ws.
Proof.
  split.
  - revert clients. induction frames as [|f frames IH]; intros clients; [done|].
    simpl. rewrite IH. unfold broadcast. apply length_fmap.
  - intros i ws Hi. rewrite (broadcast_foldl frames clients i ws Hi).
    eexists. split; [reflexivity|]. by case_decide.
Qed.

(** X16.  A message on one socket changes at most the orderId of that
    socket: the other sockets, the ready states and the frames sent stay as
    they were; a message that is not JSON, or is JSON null, changes
    nothing. *)
Theorem ws_on_message_isolated i message clients :
  let clients' := ws_on_message i message clients in
  length clients' = length clients
  ∧ (∀ j ws, clients !! j = Some ws →
       ∃ ws', clients' !! j = Some ws'
              ∧ readyState ws' = readyState ws
              ∧ ws_sent ws' = ws_sent ws
              ∧ (j ≠ i → ws' = ws))
  ∧ (message = None ∨ message = Some JNull → clients' = clients).
Proof.
  unfold ws_on_message. split; [apply length_alter|]. split.
  - intros j ws Hj. rewrite list_lookup_alter.
    case_decide as Hij.
    + subst j. rewrite Hj. simpl. eexists. split; [reflexivity|].
      destruct message as [data|]; simpl; [|done].
      unfold ws_message_try.
      destruct data as [| | | | |m]; simpl; try done.
      destruct (m !! "type") as [[| | |t| |]|]; simpl; try done.
      by destruct (String.eqb t "join_order").
    + by exists ws.
  - intros Hmsg. apply list_eq. intros j. rewrite list_lookup_alter.
    case_decide; [|done]. subst j.
    destruct (clients !! i); [|done]. simpl.
    by destruct Hmsg as [->| ->].
Qed.

(** X17.  A socket holds one orderId: a join_order frame replaces what an
    earlier frame on the socket recorded. *)
Theorem ws_join_order_replaces i first m clients :
  m !! "type" = Some (JStr "join_order") →
  ws_on_message i (Some (JObj m)) (ws_on_message i first clients)
  = ws_on_message i (Some (JObj m)) clients.
Proof.
  intros Htype. unfold ws_on_message. apply list_eq. intros j.
  destruct (decide (i = j)) as [<-|Hne];
    [|by rewrite !list_lookup_alter_ne].
  rewrite !list_lookup_alter_eq.
  destruct (clients !! i) as [ws|]; [|done]. simpl. f_equal.
  rewrite Htype. simpl.
  destruct first as [data|]; simpl; [|done].
  unfold ws_message_try.
  destruct data as [| | | | |m1]; simpl; try done.
  destruct (m1 !! "type") as [[| | |t| |]|]; simpl; try done.
  by destruct (String.eqb t "join_order").
Qed.

Lemma ws_join_order_replaces_witness :
  ws_on_message 0 (Some (join_frame "o-2"))
    (ws_on_message 0 (Some (join_frame "o-1"))
       (wss_on_connection None []))
  = ws_on_message 0 (Some (join_frame "o-2")) (wss_on_connection None []).
Proof.
  apply (ws_join_order_replaces 0 (Some (join_frame "o-1"))
           (spread (join_frame "o-2"))).
  reflexivity.
Defined.

(** X18.  The frame joinOrderRoom builds carries the order id under
    [data]: for every order id, the server's handler finds no [orderId] in
    it and sets the socket's orderId to undefined. *)
Theorem ws_joinOrderRoom_records_nothing orderId i clients ws :
  clients !! i = Some ws →
  ws_on_message i (Some (joinOrderRoom orderId)) clients !! i
  = Some (ws_set_orderId None ws).
Proof.
  intros Hi. unfold ws_on_message. rewrite list_lookup_alter_eq, Hi. simpl.
  done.
Qed.

Lemma ws_joinOrderRoom_records_nothing_witness :
  ws_on_message 0 (Some (joinOrderRoom "o-2"))
    (ws_on_message 0 (Some (join_frame "o-1")) (wss_on_connection None [])) !! 0
  = Some {| readyState := OPEN; ws_orderId := None; ws_sent := [] |}.
Proof.
  apply (ws_joinOrderRoom_records_nothing "o-2" 0
           (ws_on_message 0 (Some (join_frame "o-1")) (wss_on_connection None []))
           {| readyState := OPEN; ws_orderId := Some (JStr "o-1"); ws_sent := [] |}).
  reflexivity.
Defined.

(** ** The chat widget against the server *)







(** ** The reconnection of useWebSocket *)

Import Reconnect.

Lemma delay_bounds attempts :
  1 ≤ attempts → (2000 ≤ delay attempts ≤ 30000)%Z.
Proof.
  intros Hpos. unfold delay. split; [|lia].
  apply Z.min_glb; [|lia].
  assert (2 ^ 1 ≤ 2 ^ Z.of_nat attempts)%Z
    by (apply Z.pow_le_mono_r; lia).
  lia.
Qed.

(** X22.  When onclose sets a reconnect timer, fewer than 5 attempts had
    been made, the attempt is counted, and the timer's delay is 1000 ms
    doubled once per attempt counted so far and capped at 30000 ms: it lies
    between 2000 and 30000 ms. *)
Theorem onclose_timer h h' timer :
  onclose h = (h', Some timer) →
  reconnectAttempts h < 5
  ∧ reconnectAttempts h' = S (reconnectAttempts h)
  ∧ timer = Z.min (1000 * 2 ^ Z.of_nat (reconnectAttempts h')) 30000
  ∧ (2000 ≤ timer ≤ 30000)%Z
  ∧ reconnectTimeout h' = Some timer
  ∧ isConnected h' = false.
Proof.
  unfold onclose, maxReconnectAttempts. case_decide as Hlt; [|done].
  intros [= <- <-]. simpl. repeat split; try done; apply delay_bounds; lia.
Qed.

Lemma onclose_timer_witness :
  reconnectAttempts initial < 5
  ∧ reconnectAttempts (onclose initial).1 = S (reconnectAttempts initial)
  ∧ 2000%Z = Z.min (1000 * 2 ^ Z.of_nat (reconnectAttempts (onclose initial).1)) 30000
  ∧ (2000 ≤ 2000 ≤ 30000)%Z
  ∧ reconnectTimeout (onclose initial).1 = Some 2000%Z
  ∧ isConnected (onclose initial).1 = false.
Proof.
  apply (onclose_timer initial (onclose initial).1 2000). reflexivity.
Defined.

Lemma run_app h events1 events2 :
  run h (events1 ++ events2)
  = let '(h1, timers1) := run h events1 in
    let '(h2, timers2) := run h1 events2 in
    (h2, timers1 ++ timers2).
Proof.
  revert h. induction events1 as [|ev events1 IH]; intros h; simpl.
  - by destruct (run h events2).
  - destruct ev.
    + apply IH.
    + destruct (onclose h) as [h' timer]. rewrite IH.
      destruct (run h' events1) as [h1 timers1].
      destruct (run h1 events2) as [h2 timers2].
      by rewrite app_assoc.
Qed.

(** X23.  Over every sequence of open and close events, starting with at
    most 5 attempts counted, the count of attempts never passes 5 and every
    reconnect timer set has a delay between 2000 and 30000 ms. *)
Theorem run_bounded events :
  ∀ h,
    reconnectAttempts h ≤ 5 →
    reconnectAttempts (run h events).1 ≤ 5
    ∧ Forall (fun timer => (2000 ≤ timer ≤ 30000)%Z) (run h events).2.
Proof.
  induction events as [|ev events IH]; intros h Hle; simpl.
  - by split.
  - destruct ev.
    + apply IH. simpl. lia.
    + destruct (onclose h) as [h' timer] eqn:Hclose.
      assert (reconnectAttempts h' ≤ 5
              ∧ Forall (fun t => (2000 ≤ t ≤ 30000)%Z) (option_list timer))
        as [Hle' Htimer].
      { destruct timer as [t|].
        - apply onclose_timer in Hclose as (? & ? & _ & ? & _).
          split; [lia|]. by constructor.
        - unfold onclose in Hclose. case_decide; [done|].
          injection Hclose as <-. by split. }
      destruct (IH h' Hle') as [Hfinal Htimers].
      destruct (run h' events) as [h'' timers]. simpl in *.
      split; [done|]. by apply Forall_app.
Qed.

Lemma run_bounded_witness :
  reconnectAttempts (run initial [ev_close; ev_close; ev_open; ev_close]).1 ≤ 5
  ∧ Forall (fun timer => (2000 ≤ timer ≤ 30000)%Z)
      (run initial [ev_close; ev_close; ev_open; ev_close]).2.
Proof.
  apply (run_bounded [ev_close; ev_close; ev_open; ev_close] initial).
  simpl. lia.
Defined.

(** X24.  After an open, the sockets closing one after the other without
    another open set the timers 2000, 4000, 8000, 16000 and 30000 ms and
    then no more: the sixth close and every later one set no timer. *)
Theorem run_closes_after_open h n :
  (run (onopen h) (replicate n ev_close)).2
  = take n [2000; 4000; 8000; 16000; 30000]%Z
  ∧ reconnectAttempts (run (onopen h) (replicate n ev_close)).1 = n `min` 5
  ∧ isConnected (run (onopen h) (replicate n ev_close)).1 = bool_decide (n = 0).
Proof.
  assert (∀ k h0, reconnectAttempts h0 = 5 → isConnected h0 = false →
            (run h0 (replicate k ev_close)).2 = []
            ∧ reconnectAttempts (run h0 (replicate k ev_close)).1 = 5
            ∧ isConnected (run h0 (replicate k ev_close)).1 = false)
    as Hstuck.
  { induction k as [|k IH]; intros h0 H5 Hc0; simpl; [done|].
    unfold onclose, maxReconnectAttempts. rewrite decide_False by lia.
    destruct (IH {| isConnected := false;
                    reconnectAttempts := reconnectAttempts h0;
                    reconnectTimeout := reconnectTimeout h0 |} H5 eq_refl)
      as (Ht & Ha & Hc).
    by destruct (run _ (replicate k ev_close)) as [h1 timers]. }
  destruct n as [|[|[|[|[|n]]]]]; try (repeat split; reflexivity).
  replace (S (S (S (S (S n))))) with (5 + n) by lia.
  rewrite replicate_add, run_app.
  destruct (run (onopen h) (replicate 5 ev_close)) as [h5 timers5] eqn:H5.
  assert (reconnectAttempts h5 = 5 ∧ timers5 = [2000; 4000; 8000; 16000; 30000]%Z
          ∧ isConnected h5 = false) as (Ha5 & -> & Hc5).
  { injection H5 as <- <-. repeat split; reflexivity. }
  destruct (Hstuck n h5 Ha5 Hc5) as (Ht & Ha & Hc).
  destruct (run h5 (replicate n ev_close)) as [h' timers]. simpl in *.
  subst timers. repeat split; [by rewrite take_nil|lia|done].
Qed.

(** disconnect resets the attempts to 0 and clears the stored timer; the
    onclose handler of the socket it closes, when it runs afterwards, finds
    0 attempts and sets a reconnect timer of 2000 ms. *)
Example disconnect_then_close h :
  onclose (disconnect h)
  = ({| isConnected := false; reconnectAttempts := 1;
        reconnectTimeout := Some 2000%Z |},
     Some 2000%Z).
Proof. reflexivity. Qed.

(** ** Order tracking and the dashboards *)

Ltac list_in :=
  repeat first [ apply list_elem_of_here | apply list_elem_of_further ].

Ltac list_notin :=
  let H := fresh in
  intros H;
  repeat (apply elem_of_cons in H as [H|H]; [discriminate H|]);
  by apply elem_of_nil in H.

(** X25.  The progress list of the tracking dialog has one row a step; for
    a cancelled order, which is no step, every row is pending; for any
    other status the rows before the step of the status are completed, its
    own row is the one active row, and the rows after it are pending. *)
Theorem progress_rows_shape status :
  length (progress_rows status) = length statusSteps
  ∧ (status = cancelled →
     progress_rows status = replicate (length statusSteps) step_pending)
  ∧ (status ≠ cancelled →
     ∃ k label,
       statusSteps !! k = Some (status, label)
       ∧ currentStepIndex status = Z.of_nat k
       ∧ progress_rows status
         = (replicate k step_completed ++ [step_active])
           ++ replicate (length statusSteps - S k) step_pending).
Proof.
  split; [by destruct status|]. split; [by intros ->|].
  intros Hnc. destruct status; try done.
  - by exists 0, "Order Placed".
  - by exists 1, "Confirmed".
  - by exists 2, "Preparing".
  - by exists 3, "Ready for Pickup".
  - by exists 4, "Picked Up".
  - by exists 5, "In Transit".
  - by exists 6, "Delivered".
Qed.

(** X26.  A click in the delivery dashboard or in the vendor dashboard
    asks for the status one tracking step after the order's status, or
    sends nothing: the delivery button sends for ready, picked_up and
    in_transit only, the vendor button for confirmed and preparing only,
    and neither ever asks for pending, confirmed or cancelled. *)
Theorem dashboards_advance_one_step order orderId body :
  DeliveryDashboard.onClick order = Some (orderId, body)
  ∨ VendorDashboard.onClick order = Some (orderId, body) →
  ∃ requested,
    orderId = o_id order
    ∧ body = status_body requested
    ∧ currentStepIndex requested = (currentStepIndex (o_status order) + 1)%Z
    ∧ (requested ∉ [pending; confirmed; cancelled])
    ∧ (DeliveryDashboard.onClick order = Some (orderId, body) →
       o_status order ∈ [ready; picked_up; in_transit])
    ∧ (VendorDashboard.onClick order = Some (orderId, body) →
       o_status order ∈ [confirmed; preparing]).
Proof.
  unfold DeliveryDashboard.onClick, VendorDashboard.onClick.
  destruct (o_status order) eqn:Hs; simpl; intros [Hc|Hc];
    try discriminate Hc; injection Hc as <- <-;
    eexists; (split; [reflexivity|]); (split; [reflexivity|]);
    (split; [reflexivity|]);
    (split; [list_notin|]);
    split; intros Hc'; try discriminate Hc'; list_in.
Qed.

Lemma dashboards_advance_one_step_witness :
  ∃ requested,
    "o-2" = o_id order2
    ∧ status_body delivered = status_body requested
    ∧ currentStepIndex requested = (currentStepIndex (o_status order2) + 1)%Z
    ∧ (requested ∉ [pending; confirmed; cancelled])
    ∧ (DeliveryDashboard.onClick order2 = Some ("o-2", status_body delivered) →
       o_status order2 ∈ [ready; picked_up; in_transit])
    ∧ (VendorDashboard.onClick order2 = Some ("o-2", status_body delivered) →
       o_status order2 ∈ [confirmed; preparing]).
Proof.
  apply (dashboards_advance_one_step order2 "o-2" (status_body delivered)).
  left. reflexivity.
Defined.

(** X27.  The status button of the delivery dashboard works for the agent
    it is shown to: for an active delivery of the user's list that is the
    stored order, the PUT the click sends is answered 200 and the stored
    status becomes the next one of the delivery flow. *)
Theorem delivery_click_accepted env st user listed order :
  order ∈ DeliveryDashboard.activeOrders (Some user) listed →
  getOrder st (o_id order) = Some order →
  is_Some (DeliveryDashboard.getNextStatus (o_status order)) →
  ∃ orderId body st' order',
    DeliveryDashboard.onClick order = Some (orderId, body)
    ∧ put_orders_id env st (Some user) orderId body
      = (st', mkResponse 200 (OrderJson (Some order')))
    ∧ getOrder st' (o_id order) = Some order'
    ∧ DeliveryDashboard.getNextStatus (o_status order) = Some (o_status order')
    ∧ o_deliveryPersonId order' = Some (u_id user).
Proof.
  intros Hactive Hget [next Hnext].
  unfold DeliveryDashboard.activeOrders, DeliveryDashboard.assignedOrders in Hactive.
  apply list_elem_of_filter in Hactive as [_ Hassigned].
  apply list_elem_of_filter in Hassigned as [Hagent _]. simpl in Hagent.
  assert (canUpdate st user order = true) as Hcan.
  { apply canUpdate_true_iff. right. right. by left. }
  destruct (put_orders_id_permitted env st user (o_id order) (status_body next)
              order Hget Hcan) as (st' & Hput & Hget'); [done..|].
  exists (o_id order), (status_body next), st',
    (set_updates env (status_body next) order).
  unfold DeliveryDashboard.onClick. rewrite Hnext.
  repeat split; done.
Qed.

Lemma delivery_click_accepted_witness :
  ∃ orderId body st' order',
    DeliveryDashboard.onClick order2 = Some (orderId, body)
    ∧ put_orders_id env store (Some delivery1) orderId body
      = (st', mkResponse 200 (OrderJson (Some order')))
    ∧ getOrder st' (o_id order2) = Some order'
    ∧ DeliveryDashboard.getNextStatus (o_status order2) = Some (o_status order')
    ∧ o_deliveryPersonId order' = Some (u_id delivery1).
Proof.
  apply (delivery_click_accepted env store delivery1 [order1; order2] order2).
  - apply list_elem_of_In. left. reflexivity.
  - reflexivity.
  - by exists delivered.
Defined.

(** X28.  The progress bar of the user dashboard follows the tracking
    steps: of two statuses, one has the lower tracking index exactly when
    it has the lower progress value; a cancelled order has the lowest of
    both, index -1 and progress 0, and a delivered one progress 100. *)
Theorem getOrderProgress_follows_steps s1 s2 :
  ((currentStepIndex s1 < currentStepIndex s2)%Z
   ↔ (UserDashboard.getOrderProgress s1 < UserDashboard.getOrderProgress s2)%Z)
  ∧ (0 ≤ UserDashboard.getOrderProgress s1 ≤ 100)%Z
  ∧ (UserDashboard.getOrderProgress s1 = 0%Z ↔ s1 = cancelled)
  ∧ (UserDashboard.getOrderProgress s1 = 100%Z ↔ s1 = delivered).
Proof.
  destruct s1, s2; vm_compute; repeat split; intros; try done; try lia.
Qed.

(** ** Products *)

Lemma getProduct_deleteProduct products id id' :
  getProduct
    ((fun p => if decide (p_id p = id) then set_inactive p else p) <$> products)
    id'
  = (fun p => if decide (p_id p = id) then set_inactive p else p)
      <$> getProduct products id'.
Proof.
  unfold getProduct, select_first.
  induction products as [|p products IH]; [done|].
  rewrite fmap_cons, !filter_cons.
  assert (p_id (if decide (p_id p = id) then set_inactive p else p) = p_id p)
    as Hid by (by case_decide).
  rewrite Hid. by destruct (decide (p_id p = id')).
Qed.

(** X29.  DELETE /api/products/:id deletes softly: when it answers 200,
    every product is still in the table under its id, the products with
    the deleted id are inactive and no vendor's product list shows them,
    and every other product is listed as before. *)
Theorem delete_products_id_soft st products req_user id products' :
  delete_products_id st products req_user id
    = (products', mkReply 200 (Msg "Product deleted successfully")) →
  length products' = length products
  ∧ (∃ product, getProduct products' id = Some product
                ∧ p_isActive product = false)
  ∧ (∀ vendorId listed,
       listed ∈ getProductsByVendor products' vendorId ↔
         listed ∈ getProductsByVendor products vendorId ∧ p_id listed ≠ id).
Proof.
  unfold delete_products_id. intros Hdel.
  destruct req_user as [user|]; [|done].
  destruct (getProduct products id) as [product|] eqn:Hget; [|done].
  destruct (_ && _); [done|]. injection Hdel as <-.
  unfold deleteProduct. simpl.
  split; [by rewrite length_fmap|]. split.
  - rewrite getProduct_deleteProduct, Hget. simpl.
    unfold getProduct, select_first in Hget.
    apply head_Some_elem_of, list_elem_of_filter in Hget as [Hid _].
    rewrite decide_True by done. by eexists.
  - intros vendorId listed. unfold getProductsByVendor.
    rewrite !merge_sort_Permutation, !list_elem_of_filter, list_elem_of_fmap.
    split.
    + intros [[Hv Ha] (p & -> & Hin)].
      destruct (decide (p_id p = id)) as [Hid|Hid]; [done|].
      by repeat split.
    + intros [[[Hv Ha] Hin] Hid]. repeat split; try done.
      exists listed. by rewrite decide_False.
Qed.

Lemma delete_products_id_soft_witness :
  let products' := (delete_products_id store products (Some vendor1) "p-1").1 in
  length products' = length products
  ∧ (∃ product, getProduct products' "p-1" = Some product
                ∧ p_isActive product = false)
  ∧ (∀ vendorId listed,
       listed ∈ getProductsByVendor products' vendorId ↔
         listed ∈ getProductsByVendor products vendorId ∧ p_id listed ≠ "p-1").
Proof.
  apply (delete_products_id_soft store products (Some vendor1) "p-1").
  reflexivity.
Defined.

(** X30.  A vendor deletes only the products of the vendor record that is
    the user's: for a user of role vendor and a product of another vendor,
    or for a vendor user with no vendor record, DELETE /api/products/:id
    answers 403 and changes no product.  A user of any other role is not
    held back by the check. *)
Theorem delete_products_id_ownership st products user id product :
  getProduct products id = Some product →
  (u_role user = RoleVendor →
   v_id <$> getVendorByUserId st (u_id user) ≠ Some (p_vendorId product) →
   delete_products_id st products (Some user) id
   = (products, mkReply 403 (Msg "Can only delete your own products")))
  ∧ (u_role user ≠ RoleVendor
     ∨ v_id <$> getVendorByUserId st (u_id user) = Some (p_vendorId product) →
     delete_products_id st products (Some user) id
     = ((deleteProduct products id).1,
        mkReply 200 (Msg "Product deleted successfully"))).
Proof.
  intros Hget. unfold delete_products_id. rewrite Hget. split.
  - intros Hrole Hother.
    by rewrite (bool_decide_eq_true_2 _ Hrole), (bool_decide_eq_false_2 _ Hother).
  - intros [Hrole|Hown].
    + by rewrite (bool_decide_eq_false_2 _ Hrole).
    + by rewrite (bool_decide_eq_true_2 _ Hown), andb_false_r.
Qed.

Lemma delete_products_id_ownership_witness :
  delete_products_id store products (Some vendor1) "p-2"
  = (products, mkReply 403 (Msg "Can only delete your own products"))
  ∧ delete_products_id store products (Some customer2) "p-2"
    = ((deleteProduct products "p-2").1,
       mkReply 200 (Msg "Product deleted successfully")).
Proof.
  destruct (delete_products_id_ownership store products vendor1 "p-2" cola
              eq_refl) as [Hforbidden _].
  destruct (delete_products_id_ownership store products customer2 "p-2" cola
              eq_refl) as [_ Hallowed].
  split.
  - apply Hforbidden; [reflexivity|discriminate].
  - apply Hallowed. left. discriminate.
Defined.
